(** * synth_greenpak4: the staged synthesis script of the GreenPAK4 back end

    A shallow embedding of [techlibs/greenpak4/synth_greenpak4.cc]: the label
    window helper [check_label], the option loop of
    [SynthGreenPAK4Pass::execute] and the eight labelled stages it runs.

    The pass mutates one shared design through [Pass::call] and keeps the
    window flag [active] in a local that [check_label] updates by reference.
    Both are threaded through a small state-and-abort monad.  The state also
    carries a ghost trace that records, in program order, every label check
    together with the value it returned and every command handed to
    [Pass::call]; the properties below are stated on that trace. *)

From Stdlib Require Import String Ascii List Bool Arith Lia.
Import ListNotations.
Open Scope string_scope.

(** ** Data *)

(** The locals of [execute] that hold the parsed command line
    (lines 122-127). *)
Record options : Type := mkOptions {
  top_opt : string;
  part : string;
  run_from : string;
  run_to : string;
  json_file : string;
  flatten : bool;
  retime : bool
}.

(** Their initial values (lines 122-127). *)
Definition default_options : options :=
  {| top_opt := "-auto-top";
     part := "SLG46621V";
     run_from := "";
     run_to := "";
     json_file := "";
     flatten := true;
     retime := false |}.

(** What the pass did, in program order. *)
Inductive event : Type :=
| EvLabel (label : string) (result : bool)
| EvCall (cmd : string).

(** Why a run stopped early. *)
Inductive failure : Type :=
| CmdError (msg : string)
| CallError (cmd : string).

Inductive outcome (A : Type) : Type :=
| Done (a : A)
| Abort (e : failure).
Arguments Done {A} a.
Arguments Abort {A} e.

(** The commands of a trace, and the label checks of a trace. *)
Fixpoint calls_of (tr : list event) : list string :=
  match tr with
  | [] => []
  | EvCall c :: tr' => c :: calls_of tr'
  | EvLabel _ _ :: tr' => calls_of tr'
  end.

Fixpoint checks_of (tr : list event) : list (string * bool) :=
  match tr with
  | [] => []
  | EvLabel l b :: tr' => (l, b) :: checks_of tr'
  | EvCall _ :: tr' => checks_of tr'
  end.

(** ** Strings as the source uses them *)

Definition nl : string := String (ascii_of_nat 10) EmptyString.

(** [std::string::empty]. *)
Definition empty (s : string) : bool :=
  match s with
  | EmptyString => true
  | String _ _ => false
  end.

(** [s.c_str()] as a [%s] argument of [stringf] and of the log functions:
    the characters up to the first NUL byte. *)
Fixpoint c_str (s : string) : string :=
  match s with
  | EmptyString => EmptyString
  | String c s' =>
      if Ascii.eqb c Ascii.zero then EmptyString else String c (c_str s')
  end.

(** [std::string::find(':')]: position of the first colon, if any. *)
Fixpoint find_colon (s : string) : option nat :=
  match s with
  | EmptyString => None
  | String c s' =>
      if Ascii.eqb c ":"%char then Some 0
      else match find_colon s' with
           | Some n => Some (S n)
           | None => None
           end
  end.

(** [s.substr(pos)]: the rest of the string from [pos] on. *)
Definition substr_from (pos : nat) (s : string) : string :=
  substring pos (String.length s - pos) s.

(** ** The label window (lines 28-35) *)

(** [check_label] updates [active] through a reference and returns the
    updated value; the function below is that updated value. *)
Definition check_label (active : bool) (run_from run_to label : string) : bool :=
  let active := if label =? run_from then true else active in
  let active := if label =? run_to then false else active in
  active.

(** The part test of line 167. *)
Definition invalid_part (p : string) : bool :=
  negb (p =? "SLG46140V") && negb (p =? "SLG46620V") && negb (p =? "SLG46621V").

(** ** The option loop (lines 129-161) *)

(** [parse_args o argidx rest] runs the loop from index [argidx], where
    [rest] is [args] from that index on.  It returns the options and the
    index at which the loop stopped. *)
Fixpoint parse_args (o : options) (argidx : nat) (rest : list string)
  : options * nat :=
  match rest with
  | [] => (o, argidx)
  | a :: tl =>
      match a =? "-top", tl with
      | true, v :: tl' =>
          parse_args
            {| top_opt := "-top " ++ v; part := part o; run_from := run_from o;
               run_to := run_to o; json_file := json_file o;
               flatten := flatten o; retime := retime o |}
            (argidx + 2) tl'
      | _, _ =>
      match a =? "-json", tl with
      | true, v :: tl' =>
          parse_args
            {| top_opt := top_opt o; part := part o; run_from := run_from o;
               run_to := run_to o; json_file := v;
               flatten := flatten o; retime := retime o |}
            (argidx + 2) tl'
      | _, _ =>
      match a =? "-part", tl with
      | true, v :: tl' =>
          parse_args
            {| top_opt := top_opt o; part := v; run_from := run_from o;
               run_to := run_to o; json_file := json_file o;
               flatten := flatten o; retime := retime o |}
            (argidx + 2) tl'
      | _, _ =>
      match a =? "-run", tl with
      | true, v :: tl' =>
          match find_colon v with
          | None => (o, argidx)
          | Some pos =>
              parse_args
                {| top_opt := top_opt o; part := part o;
                   run_from := substring 0 pos v;
                   run_to := substr_from (pos + 1) v;
                   json_file := json_file o;
                   flatten := flatten o; retime := retime o |}
                (argidx + 2) tl'
          end
      | _, _ =>
          if a =? "-noflatten" then
            parse_args
              {| top_opt := top_opt o; part := part o; run_from := run_from o;
                 run_to := run_to o; json_file := json_file o;
                 flatten := false; retime := retime o |}
              (argidx + 1) tl
          else if a =? "-retime" then
            parse_args
              {| top_opt := top_opt o; part := part o; run_from := run_from o;
                 run_to := run_to o; json_file := json_file o;
                 flatten := flatten o; retime := true |}
              (argidx + 1) tl
          else (o, argidx)
      end end end end
  end.

(** ** The pass *)

Section Pass.

(** The design and the three services of the kernel the pass relies on.
    None of them is defined in this file of the repository, so they are
    parameters: the selection test [RTLIL::Design::full_selection], the
    command dispatcher [Pass::call] and [Pass::extra_args].  The two
    that run code return whether they came back normally together with the
    design they leave behind. *)
Variable Design : Type.
Variable full_selection : Design -> bool.
Variable call : Design -> string -> bool * Design.
Variable extra_args : list string -> nat -> Design -> bool * Design.

Record state : Type := mkState {
  active : bool;
  design : Design;
  trace : list event
}.

Definition M (A : Type) : Type := state -> outcome A * state.

Definition ret {A : Type} (a : A) : M A := fun s => (Done a, s).

Definition bind {A B : Type} (m : M A) (k : A -> M B) : M B :=
  fun s =>
    match m s with
    | (Done a, s') => k a s'
    | (Abort e, s') => (Abort e, s')
    end.

Notation "x <- c1 ;; c2" := (bind c1 (fun x => c2))
  (at level 61, c1 at next level, right associativity).
Notation "c1 ;; c2" := (bind c1 (fun _ => c2))
  (at level 61, right associativity).

(** A C++ [if] without [else] around a block. *)
Definition when (b : bool) (m : M unit) : M unit :=
  if b then m else ret tt.

(** The short-circuit [c && m] of line 181: [m] does not run when [c] is
    false. *)
Definition and_then (c : bool) (m : M bool) : M bool :=
  if c then m else ret false.

(** Modelled from the spec: [log_cmd_error] (kernel/log.h) is not among the
    sources.  The spec has a configuration error reported immediately and
    the pipeline not started, so the call leaves the function at once. *)
Definition log_cmd_error {A : Type} (msg : string) : M A :=
  fun s => (Abort (CmdError msg), s).

(** [Pass::call(design, cmd)]: the command is recorded, the dispatcher runs
    on the shared design, and an error it raises ends the pass. *)
Definition Pass_call (cmd : string) : M unit :=
  fun s =>
    let (ok, d) := call (design s) cmd in
    let s' := {| active := active s; design := d;
                 trace := trace s ++ [EvCall cmd] |} in
    if ok then (Done tt, s') else (Abort (CallError cmd), s').

(** A call of [check_label(active, run_from, run_to, label)]: [active] is
    overwritten with the result, which is also returned. *)
Definition check_label_ref (o : options) (label : string) : M bool :=
  fun s =>
    let a := check_label (active s) (run_from o) (run_to o) label in
    (Done a, {| active := a; design := design s;
                trace := trace s ++ [EvLabel label a] |}).

(** [bool active = run_from.empty();] (line 170). *)
Definition init_active (o : options) : M unit :=
  fun s => (Done tt, {| active := empty (run_from o); design := design s;
                        trace := trace s |}).

(** Lines 175-179. *)
Definition stage_begin (o : options) : M unit :=
  b <- check_label_ref o "begin" ;;
  when b (
    Pass_call "read_verilog -lib +/greenpak4/cells_sim.v" ;;
    Pass_call ("hierarchy -check " ++ c_str (top_opt o))).

(** Lines 181-186. *)
Definition stage_flatten (o : options) : M unit :=
  b <- and_then (flatten o) (check_label_ref o "flatten") ;;
  when b (
    Pass_call "proc" ;;
    Pass_call "flatten" ;;
    Pass_call "tribuf -logic").

(** Lines 188-191. *)
Definition stage_coarse (o : options) : M unit :=
  b <- check_label_ref o "coarse" ;;
  when b (
    Pass_call "synth -run coarse").

(** Lines 193-205. *)
Definition stage_fine (o : options) : M unit :=
  b <- check_label_ref o "fine" ;;
  when b (
    Pass_call "greenpak4_counters" ;;
    Pass_call "clean" ;;
    Pass_call "opt -fast -mux_undef -undriven -fine" ;;
    Pass_call "memory_map" ;;
    Pass_call "opt -undriven -fine" ;;
    Pass_call "techmap" ;;
    Pass_call "dfflibmap -prepare -liberty +/greenpak4/gp_dff.lib" ;;
    Pass_call "opt -fast" ;;
    when (retime o) (
      Pass_call "abc -dff")).

(** Lines 207-213. *)
Definition stage_map_luts (o : options) : M unit :=
  b <- check_label_ref o "map_luts" ;;
  when b (
    when (part o =? "SLG46140V") (Pass_call "nlutmap -luts 0,6,8,2") ;;
    when (part o =? "SLG46620V") (Pass_call "nlutmap -luts 2,8,16,2") ;;
    when (part o =? "SLG46621V") (Pass_call "nlutmap -luts 2,8,16,2") ;;
    Pass_call "clean").

(** Lines 215-224. *)
Definition stage_map_cells (o : options) : M unit :=
  b <- check_label_ref o "map_cells" ;;
  when b (
    Pass_call "dfflibmap -liberty +/greenpak4/gp_dff.lib" ;;
    Pass_call "techmap -map +/greenpak4/cells_map.v" ;;
    Pass_call "dffinit -ff GP_DFF Q INIT" ;;
    Pass_call "dffinit -ff GP_DFFR Q INIT" ;;
    Pass_call "dffinit -ff GP_DFFS Q INIT" ;;
    Pass_call "dffinit -ff GP_DFFSR Q INIT" ;;
    Pass_call "clean").

(** Lines 226-231. *)
Definition stage_check (o : options) : M unit :=
  b <- check_label_ref o "check" ;;
  when b (
    Pass_call "hierarchy -check" ;;
    Pass_call "stat" ;;
    Pass_call "check -noinit").

(** Lines 233-238. *)
Definition stage_json (o : options) : M unit :=
  b <- check_label_ref o "json" ;;
  when b (
    Pass_call "splitnets" ;;
    when (negb (empty (json_file o))) (
      Pass_call ("write_json " ++ c_str (json_file o)))).

(** Lines 175-238: the eight stages in program order. *)
Definition run_stages (o : options) : M unit :=
  stage_begin o ;;
  stage_flatten o ;;
  stage_coarse o ;;
  stage_fine o ;;
  stage_map_luts o ;;
  stage_map_cells o ;;
  stage_check o ;;
  stage_json o.

(** Lines 164-240: [execute] once the options are parsed.  The logging
    calls ([log_header], [log_push], [log_pop]) touch neither the design
    nor the window and are left out. *)
Definition run_config (o : options) : M unit :=
  (fun s =>
     when (negb (full_selection (design s)))
          (log_cmd_error
             ("This comannd only operates on fully selected designs!" ++ nl))
          s) ;;
  when (invalid_part (part o))
       (log_cmd_error
          ("Invalid part name: '" ++ c_str (part o) ++ "'" ++ nl)) ;;
  init_active o ;;
  run_stages o.

(** Line 162. *)
Definition call_extra_args (args : list string) (argidx : nat) : M unit :=
  fun s =>
    let (ok, d) := extra_args args argidx (design s) in
    let s' := {| active := active s; design := d; trace := trace s |} in
    if ok then (Done tt, s')
    else (Abort (CmdError "extra_args"), s').

(** Lines 120-241: the loop starts at index 1, after the command name. *)
Definition execute (args : list string) : M unit :=
  let (o, argidx) := parse_args default_options 1 (List.tl args) in
  call_extra_args args argidx ;;
  run_config o.

(** The state in which a run starts: nothing recorded yet.  [active] is
    assigned at line 170 before it is first read. *)
Definition start (d : Design) : state :=
  {| active := false; design := d; trace := [] |}.

(** Replaying a recorded trace: a label event stores its result in
    [active], a call event goes to the dispatcher. *)
Definition set_label (label : string) (a : bool) : M unit :=
  fun s => (Done tt, {| active := a; design := design s;
                        trace := trace s ++ [EvLabel label a] |}).

Fixpoint replay (evs : list event) : M unit :=
  match evs with
  | [] => ret tt
  | EvLabel l a :: evs' => set_label l a ;; replay evs'
  | EvCall c :: evs' => Pass_call c ;; replay evs'
  end.

End Pass.

Arguments active {Design} s.
Arguments design {Design} s.
Arguments trace {Design} s.
Arguments mkState {Design} active design trace.
Arguments ret {Design A} a s.
Arguments bind {Design A B} m k s.
Arguments when {Design} b m s.
Arguments and_then {Design} c m s.
Arguments log_cmd_error {Design A} msg s.
Arguments Pass_call {Design} call cmd s.
Arguments check_label_ref {Design} o label s.
Arguments init_active {Design} o s.
Arguments set_label {Design} label a s.
Arguments replay {Design} call evs s.
Arguments stage_begin {Design} call o s.
Arguments stage_flatten {Design} call o s.
Arguments stage_coarse {Design} call o s.
Arguments stage_fine {Design} call o s.
Arguments stage_map_luts {Design} call o s.
Arguments stage_map_cells {Design} call o s.
Arguments stage_check {Design} call o s.
Arguments stage_json {Design} call o s.
Arguments run_stages {Design} call o s.
Arguments run_config {Design} full_selection call o s.
Arguments call_extra_args {Design} extra_args args argidx s.
Arguments execute {Design} full_selection call extra_args args s.
Arguments start {Design} d.

(** ** The script as a table *)

(** The commands of each stage, as lists. *)
Definition begin_body (o : options) : list string :=
  ["read_verilog -lib +/greenpak4/cells_sim.v";
   "hierarchy -check " ++ c_str (top_opt o)].

Definition flatten_body : list string :=
  ["proc"; "flatten"; "tribuf -logic"].

Definition coarse_body : list string :=
  ["synth -run coarse"].

Definition fine_body (o : options) : list string :=
 (["greenpak4_counters";
   "clean";
   "opt -fast -mux_undef -undriven -fine";
   "memory_map";
   "opt -undriven -fine";
   "techmap";
   "dfflibmap -prepare -liberty +/greenpak4/gp_dff.lib";
   "opt -fast"]
  ++ (if retime o then ["abc -dff"] else []))%list.

Definition map_luts_body (o : options) : list string :=
 ((if part o =? "SLG46140V" then ["nlutmap -luts 0,6,8,2"] else [])
  ++ (if part o =? "SLG46620V" then ["nlutmap -luts 2,8,16,2"] else [])
  ++ (if part o =? "SLG46621V" then ["nlutmap -luts 2,8,16,2"] else [])
  ++ ["clean"])%list.

Definition map_cells_body : list string :=
  ["dfflibmap -liberty +/greenpak4/gp_dff.lib";
   "techmap -map +/greenpak4/cells_map.v";
   "dffinit -ff GP_DFF Q INIT";
   "dffinit -ff GP_DFFR Q INIT";
   "dffinit -ff GP_DFFS Q INIT";
   "dffinit -ff GP_DFFSR Q INIT";
   "clean"].

Definition check_body : list string :=
  ["hierarchy -check"; "stat"; "check -noinit"].

Definition json_body (o : options) : list string :=
  "splitnets"
  :: (if negb (empty (json_file o))
      then ["write_json " ++ c_str (json_file o)] else []).

(** The eight labels, in program order. *)
Definition stage_labels : list string :=
  ["begin"; "flatten"; "coarse"; "fine"; "map_luts"; "map_cells"; "check";
   "json"].

(** One stage in the trace: the label check with its result, then the body
    when the result is true. *)
Definition stage_events (label : string) (a : bool) (body : list string)
  : list event :=
  EvLabel label a :: (if a then map EvCall body else []).

(** Walking a table of stages with the window flag threaded through. *)
Fixpoint walk (from to : string) (a : bool) (st : list (string * list string))
  : list event :=
  match st with
  | [] => []
  | (l, body) :: st' =>
      let a' := check_label a from to l in
      (stage_events l a' body ++ walk from to a' st')%list
  end.

(** The window flag after a table of stages. *)
Fixpoint walk_active (from to : string) (a : bool)
  (st : list (string * list string)) : bool :=
  match st with
  | [] => a
  | (l, _) :: st' => walk_active from to (check_label a from to l) st'
  end.

(** The stages whose label the code checks: without [flatten] the label
    [flatten] is not among them (line 181). *)
Definition stages_before_fine (o : options) : list (string * list string) :=
 ([("begin", begin_body o)]
  ++ (if flatten o then [("flatten", flatten_body)] else [])
  ++ [("coarse", coarse_body)])%list.

Definition stages_after_fine (o : options) : list (string * list string) :=
  [("map_luts", map_luts_body o);
   ("map_cells", map_cells_body);
   ("check", check_body);
   ("json", json_body o)].

Definition stages (o : options) : list (string * list string) :=
  (stages_before_fine o ++ [("fine", fine_body o)] ++ stages_after_fine o)%list.

(** The trace the code leaves when every command succeeds. *)
Definition plan (o : options) : list event :=
  walk (run_from o) (run_to o) (empty (run_from o)) (stages o).

(** The sequencer in the words of the specification: every one of the
    eight stages has its label checked, in the fixed order, and its body
    dispatched when the window is open; the flatten flag gates the body of
    stage 2 only. *)
Definition spec_stage_table (o : options) : list (string * list string) :=
  [("begin", begin_body o);
   ("flatten", if flatten o then flatten_body else []);
   ("coarse", coarse_body);
   ("fine", fine_body o);
   ("map_luts", map_luts_body o);
   ("map_cells", map_cells_body);
   ("check", check_body);
   ("json", json_body o)].

Definition spec_sequencer (o : options) : list event :=
  walk (run_from o) (run_to o) (empty (run_from o)) (spec_stage_table o).

(** ** A recording dispatcher *)

(** The design is the list of commands applied to it so far; every command
    succeeds and every design counts as fully selected. *)
Definition recorder (d : list string) (cmd : string) : bool * list string :=
  (true, (d ++ [cmd])%list).

Definition selected (d : list string) : bool := true.

(** A stand-in for [Pass::extra_args] that accepts a command line exactly
    when the option loop consumed all of it. *)
Definition nothing_left (args : list string) (argidx : nat) (d : list string)
  : bool * list string :=
  (Nat.leb (List.length args) argidx, d).


(** [o] with another [run_to]. *)
Definition with_run_to (o : options) (to : string) : options :=
  {| top_opt := top_opt o; part := part o; run_from := run_from o;
     run_to := to; json_file := json_file o;
     flatten := flatten o; retime := retime o |}.

(** ** Updates of the options, as the option loop writes them *)

Definition with_top_opt (o : options) (v : string) : options :=
  {| top_opt := v; part := part o; run_from := run_from o;
     run_to := run_to o; json_file := json_file o;
     flatten := flatten o; retime := retime o |}.

Definition with_json_file (o : options) (v : string) : options :=
  {| top_opt := top_opt o; part := part o; run_from := run_from o;
     run_to := run_to o; json_file := v;
     flatten := flatten o; retime := retime o |}.

Definition with_part (o : options) (v : string) : options :=
  {| top_opt := top_opt o; part := v; run_from := run_from o;
     run_to := run_to o; json_file := json_file o;
     flatten := flatten o; retime := retime o |}.

Definition with_run_range (o : options) (from to : string) : options :=
  {| top_opt := top_opt o; part := part o; run_from := from;
     run_to := to; json_file := json_file o;
     flatten := flatten o; retime := retime o |}.

Definition with_run_from (o : options) (from : string) : options :=
  with_run_range o from (run_to o).

Definition with_flatten (o : options) (b : bool) : options :=
  {| top_opt := top_opt o; part := part o; run_from := run_from o;
     run_to := run_to o; json_file := json_file o;
     flatten := b; retime := retime o |}.

Definition with_retime (o : options) (b : bool) : options :=
  {| top_opt := top_opt o; part := part o; run_from := run_from o;
     run_to := run_to o; json_file := json_file o;
     flatten := flatten o; retime := b |}.

(** ** Shapes of traces *)

(** A run of stages with the window open: each label check returns true
    and each body is dispatched. *)
Fixpoint all_open (st : list (string * list string)) : list event :=
  match st with
  | [] => []
  | (l, body) :: st' => (stage_events l true body ++ all_open st')%list
  end.

(** A run of stages with the window closed: label checks only, all
    false. *)
Definition all_closed (st : list (string * list string)) : list event :=
  map (fun e => EvLabel (fst e) false) st.

(** The commands of a table of stages, in order. *)
Fixpoint bodies (st : list (string * list string)) : list string :=
  match st with
  | [] => []
  | (_, body) :: st' => (body ++ bodies st')%list
  end.

(** The design after the dispatcher has run a list of commands in order,
    whether they succeeded or not. *)
Definition dispatch_all {Design : Type}
  (call : Design -> string -> bool * Design) (cmds : list string) (d : Design)
  : Design :=
  fold_left (fun d c => snd (call d c)) cmds d.

(** Whether the dispatcher accepts every command of a trace when they
    are dispatched in order from [d]. *)
Fixpoint accepts_all {Design : Type}
  (call : Design -> string -> bool * Design) (d : Design) (evs : list event)
  : bool :=
  match evs with
  | [] => true
  | EvLabel _ _ :: evs' => accepts_all call d evs'
  | EvCall c :: evs' => fst (call d c) && accepts_all call (snd (call d c)) evs'
  end.

(** A recording dispatcher that fails on one command. *)
Definition fails_on (bad : string) (d : list string) (cmd : string)
  : bool * list string :=
  (negb (cmd =? bad), (d ++ [cmd])%list).

(** * Facts *)

Open Scope list_scope.

(** ** The window helper *)

Lemma check_label_same (a : bool) (l : string) : check_label a l l l = false.
Proof.
  unfold check_label. rewrite String.eqb_refl. reflexivity.
Qed.

Lemma check_label_closed (f t l : string) :
  l <> f -> check_label false f t l = false.
Proof.
  intros Hf. unfold check_label.
  apply String.eqb_neq in Hf. rewrite Hf.
  destruct (l =? t); reflexivity.
Qed.

Lemma check_label_no_exit (a : bool) (f t l : string) :
  l <> t -> check_label a f t l = (l =? f) || a.
Proof.
  intros Ht. unfold check_label.
  apply String.eqb_neq in Ht. rewrite Ht.
  destruct (l =? f); reflexivity.
Qed.

(** ** Traces *)

Lemma calls_of_app (tr1 tr2 : list event) :
  calls_of (tr1 ++ tr2) = calls_of tr1 ++ calls_of tr2.
Proof.
  induction tr1 as [|[l b|c] tr1 IH]; simpl; [reflexivity|exact IH|].
  now rewrite IH.
Qed.

Lemma checks_of_app (tr1 tr2 : list event) :
  checks_of (tr1 ++ tr2) = checks_of tr1 ++ checks_of tr2.
Proof.
  induction tr1 as [|[l b|c] tr1 IH]; simpl; [reflexivity| |exact IH].
  now rewrite IH.
Qed.

Lemma calls_of_map_call (cs : list string) : calls_of (map EvCall cs) = cs.
Proof.
  induction cs as [|c cs IH]; simpl; [reflexivity|now rewrite IH].
Qed.

Lemma checks_of_map_call (cs : list string) : checks_of (map EvCall cs) = [].
Proof.
  induction cs as [|c cs IH]; simpl; [reflexivity|exact IH].
Qed.

Lemma calls_of_stage (l : string) (a : bool) (body : list string) :
  calls_of (stage_events l a body) = if a then body else [].
Proof.
  unfold stage_events. simpl. destruct a; [apply calls_of_map_call|reflexivity].
Qed.

Lemma checks_of_stage (l : string) (a : bool) (body : list string) :
  checks_of (stage_events l a body) = [(l, a)].
Proof.
  unfold stage_events. simpl.
  destruct a; [now rewrite checks_of_map_call|reflexivity].
Qed.

Lemma walk_cons (f t : string) (a : bool) (l : string) (body : list string)
  (st : list (string * list string)) :
  walk f t a ((l, body) :: st)
  = stage_events l (check_label a f t l) body
    ++ walk f t (check_label a f t l) st.
Proof. reflexivity. Qed.

Lemma walk_app (f t : string) (a : bool) (st1 st2 : list (string * list string)) :
  walk f t a (st1 ++ st2)
  = walk f t a st1 ++ walk f t (walk_active f t a st1) st2.
Proof.
  revert a. induction st1 as [|[l body] st1 IH]; intros a.
  - reflexivity.
  - simpl app. rewrite !walk_cons, IH, <- app_assoc. reflexivity.
Qed.

Lemma checks_of_walk_cons (f t : string) (a : bool) (l : string)
  (body : list string) (st : list (string * list string)) :
  checks_of (walk f t a ((l, body) :: st))
  = (l, check_label a f t l) :: checks_of (walk f t (check_label a f t l) st).
Proof.
  rewrite walk_cons, checks_of_app, checks_of_stage. reflexivity.
Qed.

Lemma in_call_iff (c : string) (tr : list event) :
  In (EvCall c) tr <-> In c (calls_of tr).
Proof.
  induction tr as [|[l b|c'] tr IH]; simpl.
  - tauto.
  - split; [intros [H|H]; [discriminate|now apply IH]|].
    intros H. right. now apply IH.
  - split; intros [H|H]; try (right; now apply IH).
    + left. now inversion H.
    + left. now subst.
Qed.

(** A command in a walk comes from the body of an entry of the table. *)
Lemma in_calls_walk (f t : string) (a : bool)
  (st : list (string * list string)) (c : string) :
  In c (calls_of (walk f t a st)) ->
  exists l body, In (l, body) st /\ In c body.
Proof.
  revert a. induction st as [|[l body] st IH]; intros a; simpl.
  - intros [].
  - rewrite calls_of_app. intros H. apply in_app_or in H. destruct H as [H|H].
    + destruct (check_label a f t l); simpl in H.
      * rewrite calls_of_map_call in H. exists l, body. auto.
      * destruct H.
    + destruct (IH _ H) as (l' & body' & Hin & Hc).
      exists l', body'. auto.
Qed.

(** A label in a walk is the label of an entry of the table. *)
Lemma in_label_walk (f t : string) (a : bool)
  (st : list (string * list string)) (l : string) (b : bool) :
  In (EvLabel l b) (walk f t a st) -> In l (map fst st).
Proof.
  revert a. induction st as [|[l' body] st IH]; intros a.
  - intros [].
  - rewrite walk_cons. intros H. apply in_app_or in H. destruct H as [H|H].
    + unfold stage_events in H. destruct H as [H|H].
      * inversion H. now left.
      * destruct (check_label a f t l'); [|destruct H].
        apply in_map_iff in H. destruct H as (c & Hc & _). discriminate.
    + right. exact (IH _ H).
Qed.

(** A closed window stays closed over entries whose label is not
    [run_from]. *)
Lemma walk_closed (f t : string) (st : list (string * list string)) :
  ~ In f (map fst st) ->
  walk f t false st = map (fun e => EvLabel (fst e) false) st.
Proof.
  induction st as [|[l body] st IH]; intros Hf.
  - reflexivity.
  - rewrite walk_cons. simpl in Hf.
    rewrite check_label_closed by (intros E; apply Hf; now left).
    simpl. f_equal. apply IH. intros H. apply Hf. now right.
Qed.

Lemma calls_of_labels (st : list (string * list string)) :
  calls_of (map (fun e => EvLabel (fst e) false) st) = [].
Proof.
  induction st as [|e st IH]; simpl; [reflexivity|exact IH].
Qed.

Lemma checks_of_labels (st : list (string * list string)) :
  checks_of (map (fun e => EvLabel (fst e) false) st)
  = map (fun e => (fst e, false)) st.
Proof.
  induction st as [|e st IH]; simpl; [reflexivity|now rewrite IH].
Qed.

(** An open window stays open over entries whose label is not [run_to]. *)
Lemma walk_open (f t : string) (st : list (string * list string)) :
  ~ In t (map fst st) ->
  Forall (fun c => snd c = true) (checks_of (walk f t true st)).
Proof.
  induction st as [|[l body] st IH]; intros Ht.
  - constructor.
  - rewrite checks_of_walk_cons. simpl in Ht.
    rewrite check_label_no_exit by (intros E; apply Ht; now left).
    rewrite orb_true_r. constructor; [reflexivity|].
    apply IH. intros H. apply Ht. now right.
Qed.

(** With [run_to] not among the labels, every check after one that
    returned true returns true. *)
Lemma walk_never_closes (f t : string) (a : bool)
  (st : list (string * list string)) :
  ~ In t (map fst st) ->
  forall l1 l l2,
    checks_of (walk f t a st) = l1 ++ (l, true) :: l2 ->
    Forall (fun c => snd c = true) l2.
Proof.
  revert a. induction st as [|[l0 body] st IH]; intros a Ht l1 l l2.
  - simpl. intros H. destruct l1; discriminate.
  - rewrite checks_of_walk_cons. simpl in Ht. intros H.
    assert (Ht' : ~ In t (map fst st)) by (intros X; apply Ht; now right).
    destruct l1 as [|x l1]; simpl in H.
    + inversion H as [[E1 E2 E3]]. rewrite E2. now apply walk_open.
    + inversion H as [[E1 E2]]. exact (IH _ Ht' _ _ _ E2).
Qed.

(** The walk does not depend on a [run_to] that none of the labels
    equals. *)
Lemma walk_run_to_irrelevant (f t t' : string) (a : bool)
  (st : list (string * list string)) :
  ~ In t (map fst st) -> ~ In t' (map fst st) ->
  walk f t a st = walk f t' a st.
Proof.
  revert a. induction st as [|[l body] st IH]; intros a Ht Ht'.
  - reflexivity.
  - rewrite !walk_cons. simpl in Ht, Ht'.
    rewrite (check_label_no_exit a f t l) by (intros E; apply Ht; now left).
    rewrite (check_label_no_exit a f t' l) by (intros E; apply Ht'; now left).
    f_equal. apply IH; intros H; [apply Ht|apply Ht']; now right.
Qed.

(** The labels the code checks are among the eight. *)
Lemma stages_labels (o : options) :
  map fst (stages o)
  = if flatten o then stage_labels
    else ["begin"; "coarse"; "fine"; "map_luts"; "map_cells"; "check"; "json"].
Proof.
  unfold stages, stages_before_fine. destruct (flatten o); reflexivity.
Qed.

Lemma stages_labels_incl (o : options) (l : string) :
  In l (map fst (stages o)) -> In l stage_labels.
Proof.
  rewrite stages_labels. destruct (flatten o); [tauto|].
  unfold stage_labels. simpl. tauto.
Qed.

(** With [flatten] the table of the code is the table of the
    specification; without, it is that table less its [flatten] entry. *)
Lemma stages_spec_table (o : options) :
  stages o
  = if flatten o then spec_stage_table o
    else filter (fun e => negb (fst e =? "flatten")) (spec_stage_table o).
Proof.
  unfold stages, stages_before_fine, spec_stage_table.
  destruct (flatten o); reflexivity.
Qed.

Lemma checked_labels_walk (f t : string) (a : bool)
  (st : list (string * list string)) :
  map fst (checks_of (walk f t a st)) = map fst st.
Proof.
  revert a. induction st as [|[l body] st IH]; intros a.
  - reflexivity.
  - rewrite checks_of_walk_cons. simpl. now rewrite IH.
Qed.

(** ** The option loop on examples *)

Example parse_part_and_range :
  parse_args default_options 1
    ["-part"; "SLG46140V"; "-run"; "map_luts:check"]
  = ({| top_opt := "-auto-top"; part := "SLG46140V"; run_from := "map_luts";
        run_to := "check"; json_file := ""; flatten := true;
        retime := false |}, 5).
Proof. reflexivity. Qed.

Example parse_json_default_part :
  parse_args default_options 1 ["-json"; "/tmp/out.json"]
  = ({| top_opt := "-auto-top"; part := "SLG46621V"; run_from := "";
        run_to := ""; json_file := "/tmp/out.json"; flatten := true;
        retime := false |}, 3).
Proof. reflexivity. Qed.

Example parse_range_without_colon :
  parse_args default_options 1 ["-retime"; "-run"; "foo"; "-noflatten"]
  = ({| top_opt := "-auto-top"; part := "SLG46621V"; run_from := "";
        run_to := ""; json_file := ""; flatten := true; retime := true |}, 2).
Proof. reflexivity. Qed.

Example parse_open_ranges :
  parse_args default_options 1 ["-noflatten"; "-run"; "fine:"; "-top"; "cpu"]
  = ({| top_opt := "-top cpu"; part := "SLG46621V"; run_from := "fine";
        run_to := ""; json_file := ""; flatten := false; retime := false |}, 6).
Proof. reflexivity. Qed.

(** The part test rejects exactly the names outside the three parts. *)
Lemma invalid_part_iff (p : string) :
  invalid_part p = true <-> ~ In p ["SLG46140V"; "SLG46620V"; "SLG46621V"].
Proof.
  unfold invalid_part. simpl.
  destruct (p =? "SLG46140V") eqn:E1;
    [apply String.eqb_eq in E1|apply String.eqb_neq in E1];
  (destruct (p =? "SLG46620V") eqn:E2;
    [apply String.eqb_eq in E2|apply String.eqb_neq in E2]);
  (destruct (p =? "SLG46621V") eqn:E3;
    [apply String.eqb_eq in E3|apply String.eqb_neq in E3]);
  simpl; split; intros H; try discriminate; try reflexivity;
  try (exfalso; apply H; auto; fail).
  intros [X|[X|[X|[]]]]; congruence.
Qed.

Ltac not_in_body H :=
  simpl in H;
  repeat match type of H with
         | _ \/ _ => destruct H as [H|H]
         end;
  solve [discriminate H | destruct H].

(** The three commands of the flatten body occur in no other body. *)
Lemma flatten_body_elsewhere (o : options) (c l : string)
  (body : list string) :
  flatten o = false ->
  In c flatten_body ->
  In (l, body) (stages o) ->
  ~ In c body.
Proof.
  intros F Hc Hin Hb.
  unfold stages, stages_before_fine, stages_after_fine in Hin.
  rewrite F in Hin. simpl in Hin.
  unfold flatten_body in Hc. simpl in Hc.
  unfold begin_body, coarse_body, fine_body, map_luts_body, map_cells_body,
    check_body, json_body in Hin.
  destruct Hc as [Hc|[Hc|[Hc|[]]]]; subst c;
    (destruct Hin as [E|[E|[E|[E|[E|[E|[E|[]]]]]]]];
     inversion E; subst l body; clear E;
     [ not_in_body Hb
     | not_in_body Hb
     | destruct (retime o); not_in_body Hb
     | destruct (part o =? "SLG46140V"), (part o =? "SLG46620V"),
         (part o =? "SLG46621V"); not_in_body Hb
     | not_in_body Hb
     | not_in_body Hb
     | destruct (empty (json_file o)); not_in_body Hb ]).
Qed.

(** The retiming command occurs in the body of [fine] only, and there
    only with the retime flag. *)
Lemma abc_dff_elsewhere (o : options) (l : string) (body : list string) :
  In (l, body) (stages_before_fine o ++ stages_after_fine o) ->
  ~ In "abc -dff" body.
Proof.
  intros Hin Hb.
  unfold stages_before_fine, stages_after_fine in Hin.
  unfold begin_body, flatten_body, coarse_body, map_luts_body, map_cells_body,
    check_body, json_body in Hin.
  destruct (flatten o); simpl in Hin;
    repeat match type of Hin with
           | _ \/ _ => destruct Hin as [Hin|Hin]
           | False => destruct Hin
           end;
    inversion Hin; subst l body; clear Hin;
    try (destruct (part o =? "SLG46140V"), (part o =? "SLG46620V"),
           (part o =? "SLG46621V"));
    try (destruct (empty (json_file o)));
    not_in_body Hb.
Qed.

Lemma abc_dff_needs_retime (o : options) (l : string) (body : list string) :
  retime o = false ->
  In (l, body) (stages o) ->
  ~ In "abc -dff" body.
Proof.
  intros R Hin. unfold stages in Hin.
  apply in_app_or in Hin. destruct Hin as [Hin|Hin].
  - apply (abc_dff_elsewhere o l body). apply in_or_app. now left.
  - simpl in Hin. destruct Hin as [Hin|Hin].
    + inversion Hin. unfold fine_body. rewrite R. intros Hb. not_in_body Hb.
    + apply (abc_dff_elsewhere o l body). apply in_or_app. now right.
Qed.

Lemma before_fine_labels (o : options) (l : string) :
  In l (map fst (stages_before_fine o)) ->
  l = "begin" \/ l = "flatten" \/ l = "coarse".
Proof.
  unfold stages_before_fine. destruct (flatten o); simpl; intuition auto.
Qed.

Lemma all_false_labels (st : list (string * list string)) :
  Forall (fun c : string * bool => snd c = false)
    (map (fun e : string * list string => (fst e, false)) st).
Proof.
  induction st as [|e st IH]; simpl; constructor; [reflexivity|exact IH].
Qed.

(** ** The run range as a window over the stages *)

Lemma check_label_open (f t l : string) :
  l <> t -> check_label true f t l = true.
Proof.
  intros H. rewrite check_label_no_exit by exact H. apply orb_true_r.
Qed.

Lemma check_label_enter (a : bool) (f t : string) :
  f <> t -> check_label a f t f = true.
Proof.
  intros H. rewrite check_label_no_exit by exact H.
  now rewrite String.eqb_refl.
Qed.

Lemma check_label_exit (a : bool) (f t : string) :
  check_label a f t t = false.
Proof.
  unfold check_label. rewrite String.eqb_refl.
  destruct (t =? f); reflexivity.
Qed.

Lemma walk_all_closed (f t : string) (st : list (string * list string)) :
  ~ In f (map fst st) -> walk f t false st = all_closed st.
Proof. apply walk_closed. Qed.

Lemma all_open_cons (l : string) (body : list string)
  (st : list (string * list string)) :
  all_open ((l, body) :: st) = stage_events l true body ++ all_open st.
Proof. reflexivity. Qed.

Lemma walk_all_open (f t : string) (st : list (string * list string)) :
  ~ In t (map fst st) -> walk f t true st = all_open st.
Proof.
  induction st as [|[l body] st IH]; intros Ht.
  - reflexivity.
  - rewrite walk_cons. simpl in Ht.
    rewrite check_label_open by (intros E; apply Ht; now left).
    rewrite all_open_cons. f_equal. apply IH. intros H. apply Ht. now right.
Qed.

Lemma walk_active_closed (f t : string) (st : list (string * list string)) :
  ~ In f (map fst st) -> walk_active f t false st = false.
Proof.
  induction st as [|[l body] st IH]; intros Hf.
  - reflexivity.
  - simpl in *. rewrite check_label_closed by (intros E; apply Hf; now left).
    apply IH. intros H. apply Hf. now right.
Qed.

Lemma walk_active_open (f t : string) (st : list (string * list string)) :
  ~ In t (map fst st) -> walk_active f t true st = true.
Proof.
  induction st as [|[l body] st IH]; intros Ht.
  - reflexivity.
  - simpl in *. rewrite check_label_open by (intros E; apply Ht; now left).
    apply IH. intros H. apply Ht. now right.
Qed.

Lemma calls_of_all_open (st : list (string * list string)) :
  calls_of (all_open st) = bodies st.
Proof.
  induction st as [|[l body] st IH]; simpl; [reflexivity|].
  now rewrite calls_of_app, calls_of_map_call, IH.
Qed.

Lemma calls_of_all_closed (st : list (string * list string)) :
  calls_of (all_closed st) = [].
Proof. apply calls_of_labels. Qed.

Lemma calls_of_block (s1 s2 s3 : list (string * list string)) :
  calls_of (all_closed s1 ++ all_open s2 ++ all_closed s3) = bodies s2.
Proof.
  rewrite !calls_of_app, !calls_of_all_closed, calls_of_all_open.
  simpl. apply app_nil_r.
Qed.

(** The labels of the stages are pairwise different and none is empty. *)
Lemma stages_nodup (o : options) : NoDup (map fst (stages o)).
Proof.
  rewrite stages_labels.
  destruct (flatten o); unfold stage_labels;
    repeat (constructor;
            [simpl; intros H;
             repeat (destruct H as [H|H]; [discriminate H|]); destruct H|]);
    constructor.
Qed.

Lemma stages_label_nonempty (o : options) (l : string) :
  In l (map fst (stages o)) -> empty l = false.
Proof.
  intros H. apply stages_labels_incl in H. unfold stage_labels in H.
  simpl in H.
  repeat (destruct H as [H|H]; [subst l; reflexivity|]). destruct H.
Qed.

Lemma empty_not_label (o : options) : ~ In "" (map fst (stages o)).
Proof.
  intros H. apply stages_label_nonempty in H. discriminate H.
Qed.

Lemma empty_true (s : string) : empty s = true -> s = "".
Proof. destruct s; [reflexivity|discriminate]. Qed.

(** With the window open and run_from out of the way, stages run until
    the one labelled run_to; from there on nothing runs. *)
Lemma walk_open_block (f t : string) (st : list (string * list string)) :
  ~ In f (map fst st) ->
  exists s2 s3,
    st = s2 ++ s3 /\ walk f t true st = all_open s2 ++ all_closed s3 /\
    (s3 = [] \/ exists b, hd_error s3 = Some (t, b)).
Proof.
  induction st as [|[l body] st IH]; intros Hf.
  - exists [], []. repeat split. now left.
  - simpl in Hf.
    assert (Hf' : ~ In f (map fst st)) by (intros X; apply Hf; now right).
    destruct (String.eqb_spec l t) as [E|N].
    + subst l. exists [], ((t, body) :: st). split; [reflexivity|]. split.
      * rewrite walk_cons, check_label_exit, walk_all_closed by exact Hf'.
        reflexivity.
      * right. now exists body.
    + destruct (IH Hf') as (s2 & s3 & E & W & K).
      exists ((l, body) :: s2), s3. split; [simpl; now rewrite E|]. split.
      * rewrite walk_cons, check_label_open, W by exact N.
        rewrite all_open_cons. now rewrite <- app_assoc.
      * exact K.
Qed.

(** From a closed window: nothing runs before the stage labelled
    run_from, and after it stages run until the one labelled run_to. *)
Lemma walk_closed_block (f t : string) (st : list (string * list string)) :
  NoDup (map fst st) ->
  exists s1 s2 s3,
    st = s1 ++ s2 ++ s3 /\
    walk f t false st = all_closed s1 ++ all_open s2 ++ all_closed s3.
Proof.
  induction st as [|[l body] st IH]; intros ND.
  - exists [], [], []. split; reflexivity.
  - simpl in ND. inversion ND as [|x xs Hnot ND']. subst x xs.
    destruct (String.eqb_spec l f) as [E|N].
    + subst l. destruct (String.eqb_spec f t) as [E|N].
      * subst t. exists ((f, body) :: st), [], []. split.
        -- simpl. now rewrite app_nil_r.
        -- rewrite walk_cons, check_label_same, walk_all_closed by exact Hnot.
           simpl. now rewrite app_nil_r.
      * destruct (walk_open_block f t st Hnot) as (s2 & s3 & E & W & _).
        exists [], ((f, body) :: s2), s3. split; [simpl; now rewrite E|].
        rewrite walk_cons, check_label_enter, W by exact N.
        simpl. now rewrite <- app_assoc.
    + destruct (IH ND') as (s1 & s2 & s3 & E & W).
      exists ((l, body) :: s1), s2, s3. split; [simpl; now rewrite E|].
      rewrite walk_cons, check_label_closed, W by exact N. reflexivity.
Qed.

(** The three shapes of a range. *)
Lemma walk_from_to (f t : string) (b b' : list string)
  (s1 s2 s3 : list (string * list string)) :
  NoDup (map fst (s1 ++ (f, b) :: s2 ++ (t, b') :: s3)) ->
  walk f t false (s1 ++ (f, b) :: s2 ++ (t, b') :: s3)
  = all_closed s1 ++ all_open ((f, b) :: s2) ++ all_closed ((t, b') :: s3).
Proof.
  intros ND.
  assert (F := ND). rewrite map_app in F. simpl in F.
  apply NoDup_remove_2 in F. rewrite map_app in F. simpl in F.
  assert (T := ND).
  replace (s1 ++ (f, b) :: s2 ++ (t, b') :: s3)
    with ((s1 ++ (f, b) :: s2) ++ (t, b') :: s3) in T
    by (rewrite <- app_assoc; reflexivity).
  rewrite map_app in T. simpl in T. apply NoDup_remove_2 in T.
  rewrite map_app in T. simpl in T.
  assert (F1 : ~ In f (map fst s1)) by (intros X; apply F; apply in_or_app; now left).
  assert (F2 : f <> t).
  { intros X. apply F. apply in_or_app. right. apply in_or_app. right.
    left. now symmetry. }
  assert (F3 : ~ In f (map fst s3)).
  { intros X. apply F. apply in_or_app. right. apply in_or_app. right.
    now right. }
  assert (T2 : ~ In t (map fst s2)).
  { intros X. apply T. apply in_or_app. left. apply in_or_app. right.
    now right. }
  rewrite walk_app, walk_all_closed, walk_active_closed by exact F1.
  rewrite walk_cons, check_label_enter by exact F2.
  rewrite walk_app, walk_all_open, walk_active_open by exact T2.
  rewrite walk_cons, check_label_exit, walk_all_closed by exact F3.
  simpl. rewrite <- !app_assoc. reflexivity.
Qed.

Lemma walk_until (f t : string) (b' : list string)
  (s1 s3 : list (string * list string)) :
  ~ In f (map fst (s1 ++ (t, b') :: s3)) ->
  NoDup (map fst (s1 ++ (t, b') :: s3)) ->
  walk f t true (s1 ++ (t, b') :: s3)
  = all_open s1 ++ all_closed ((t, b') :: s3).
Proof.
  intros F ND. rewrite map_app in F, ND. simpl in F, ND.
  apply NoDup_remove_2 in ND.
  assert (T1 : ~ In t (map fst s1))
    by (intros X; apply ND; apply in_or_app; now left).
  assert (F3 : ~ In f (map fst s3)).
  { intros X. apply F. apply in_or_app. right. now right. }
  rewrite walk_app, walk_all_open, walk_active_open by exact T1.
  rewrite walk_cons, check_label_exit, walk_all_closed by exact F3.
  reflexivity.
Qed.

Lemma walk_from (f t : string) (b : list string)
  (s1 s2 : list (string * list string)) :
  NoDup (map fst (s1 ++ (f, b) :: s2)) ->
  f <> t ->
  ~ In t (map fst s2) ->
  walk f t false (s1 ++ (f, b) :: s2)
  = all_closed s1 ++ all_open ((f, b) :: s2).
Proof.
  intros ND N T. rewrite map_app in ND. simpl in ND.
  apply NoDup_remove_2 in ND.
  assert (F1 : ~ In f (map fst s1))
    by (intros X; apply ND; apply in_or_app; now left).
  rewrite walk_app, walk_all_closed, walk_active_closed by exact F1.
  rewrite walk_cons, check_label_enter, walk_all_open by assumption.
  reflexivity.
Qed.

Lemma walk_same_label (f : string) (st : list (string * list string)) :
  walk f f false st = all_closed st.
Proof.
  induction st as [|[l body] st IH].
  - reflexivity.
  - rewrite walk_cons.
    assert (E : check_label false f f l = false).
    { unfold check_label. destruct (l =? f); reflexivity. }
    rewrite E, IH. reflexivity.
Qed.

Lemma check_label_no_entry (a : bool) (f t l : string) :
  l <> f -> check_label a f t l = negb (l =? t) && a.
Proof.
  intros H. unfold check_label. apply String.eqb_neq in H. rewrite H.
  destruct (l =? t); reflexivity.
Qed.

Lemma walk_run_from_irrelevant (f f' t : string) (a : bool)
  (st : list (string * list string)) :
  ~ In f (map fst st) -> ~ In f' (map fst st) ->
  walk f t a st = walk f' t a st.
Proof.
  revert a. induction st as [|[l body] st IH]; intros a Hf Hf'.
  - reflexivity.
  - rewrite !walk_cons. simpl in Hf, Hf'.
    rewrite (check_label_no_entry a f t l) by (intros E; apply Hf; now left).
    rewrite (check_label_no_entry a f' t l) by (intros E; apply Hf'; now left).
    f_equal. apply IH; intros H; [apply Hf|apply Hf']; now right.
Qed.

Section Facts.

Variable Design : Type.
Variable full_selection : Design -> bool.
Variable call : Design -> string -> bool * Design.

Local Notation "x <- c1 ;; c2" := (bind c1 (fun x => c2))
  (at level 61, c1 at next level, right associativity).
Local Notation "c1 ;; c2" := (bind c1 (fun _ => c2))
  (at level 61, right associativity).

(** ** Replaying traces *)

Lemma replay_app (evs1 evs2 : list event) (s : state Design) :
  replay call (evs1 ++ evs2) s = (replay call evs1 ;; replay call evs2) s.
Proof.
  revert s. induction evs1 as [|[l a|c] evs1 IH]; intros s.
  - reflexivity.
  - simpl. unfold bind, set_label in *. simpl. apply IH.
  - simpl. unfold bind, Pass_call in *.
    destruct (call (design s) c) as [[|] d]; simpl; [apply IH|reflexivity].
Qed.

Lemma replay_calls_active (cs : list string) (s s' : state Design)
  (r : outcome unit) :
  replay call (map EvCall cs) s = (r, s') -> active s' = active s.
Proof.
  revert s. induction cs as [|c cs IH]; intros s; simpl.
  - unfold ret. intros H. now inversion H.
  - unfold bind, Pass_call.
    destruct (call (design s) c) as [[|] d]; simpl; intros H.
    + apply IH in H. exact H.
    + now inversion H.
Qed.

Lemma replay_stage_active (l : string) (a : bool) (body : list string)
  (s s' : state Design) :
  replay call (stage_events l a body) s = (Done tt, s') -> active s' = a.
Proof.
  unfold stage_events. simpl. unfold bind at 1, set_label. simpl.
  destruct a; intros H.
  - apply replay_calls_active in H. exact H.
  - simpl in H. unfold ret in H. now inversion H.
Qed.

(** With a dispatcher that never fails the whole trace is replayed. *)
Lemma replay_total (evs : list event) (s : state Design) :
  (forall d c, fst (call d c) = true) ->
  fst (replay call evs s) = Done tt /\
  trace (snd (replay call evs s)) = trace s ++ evs.
Proof.
  intros Hok. revert s. induction evs as [|[l a|c] evs IH]; intros s; simpl.
  - now rewrite app_nil_r.
  - unfold bind, set_label. simpl.
    destruct (IH {| active := a; design := design s;
                    trace := trace s ++ [EvLabel l a] |}) as [H1 H2].
    split; [exact H1|]. rewrite H2. simpl. now rewrite <- app_assoc.
  - unfold bind, Pass_call. specialize (Hok (design s) c).
    destruct (call (design s) c) as [ok d]. simpl in Hok. subst ok. simpl.
    destruct (IH {| active := active s; design := d;
                    trace := trace s ++ [EvCall c] |}) as [H1 H2].
    split; [exact H1|]. rewrite H2. simpl. now rewrite <- app_assoc.
Qed.

(** A trace without commands is replayed whole by every dispatcher and
    leaves the design alone. *)
Lemma replay_labels (evs : list event) (s : state Design) :
  calls_of evs = [] ->
  fst (replay call evs s) = Done tt /\
  design (snd (replay call evs s)) = design s /\
  trace (snd (replay call evs s)) = trace s ++ evs.
Proof.
  revert s. induction evs as [|[l a|c] evs IH]; intros s; simpl; intros Hc.
  - now rewrite app_nil_r.
  - unfold bind, set_label. simpl.
    destruct (IH {| active := a; design := design s;
                    trace := trace s ++ [EvLabel l a] |} Hc) as (H1 & H2 & H3).
    repeat split; [exact H1|exact H2|]. rewrite H3. simpl.
    now rewrite <- app_assoc.
  - discriminate.
Qed.

(** Whatever the dispatcher does, what was recorded is an initial part of
    the trace replayed. *)
Lemma replay_prefix (evs : list event) (s : state Design) :
  exists pre post,
    evs = pre ++ post /\ trace (snd (replay call evs s)) = trace s ++ pre.
Proof.
  revert s. induction evs as [|[l a|c] evs IH]; intros s; simpl.
  - exists [], []. split; [reflexivity|]. simpl. now rewrite app_nil_r.
  - unfold bind, set_label. simpl.
    destruct (IH {| active := a; design := design s;
                    trace := trace s ++ [EvLabel l a] |})
      as (pre & post & E & T).
    exists (EvLabel l a :: pre), post. split; [simpl; now rewrite E|].
    rewrite T. simpl. now rewrite <- app_assoc.
  - unfold bind, Pass_call.
    destruct (call (design s) c) as [[|] d]; simpl.
    + destruct (IH {| active := active s; design := d;
                      trace := trace s ++ [EvCall c] |})
        as (pre & post & E & T).
      exists (EvCall c :: pre), post. split; [simpl; now rewrite E|].
      rewrite T. simpl. now rewrite <- app_assoc.
    + exists [EvCall c], evs. split; reflexivity.
Qed.

(** ** The stages replay their table entries *)

Ltac run_calls :=
  intros;
  cbv delta [begin_body flatten_body coarse_body fine_body map_luts_body
             map_cells_body check_body json_body];
  simpl; unfold bind, when, Pass_call, ret; simpl;
  repeat match goal with
         | |- context [call ?d ?c] =>
             destruct (call d c) as [[|] ?]; simpl; try reflexivity
         end.

Lemma begin_body_replay (o : options) (s : state Design) :
  (Pass_call call "read_verilog -lib +/greenpak4/cells_sim.v" ;;
   Pass_call call ("hierarchy -check " ++ c_str (top_opt o))%string) s
  = replay call (map EvCall (begin_body o)) s.
Proof. run_calls. Qed.

Lemma flatten_body_replay (s : state Design) :
  (Pass_call call "proc" ;;
   Pass_call call "flatten" ;;
   Pass_call call "tribuf -logic") s
  = replay call (map EvCall flatten_body) s.
Proof. run_calls. Qed.

Lemma coarse_body_replay (s : state Design) :
  Pass_call call "synth -run coarse" s
  = replay call (map EvCall coarse_body) s.
Proof. run_calls. Qed.

Lemma fine_body_replay (o : options) (s : state Design) :
  (Pass_call call "greenpak4_counters" ;;
   Pass_call call "clean" ;;
   Pass_call call "opt -fast -mux_undef -undriven -fine" ;;
   Pass_call call "memory_map" ;;
   Pass_call call "opt -undriven -fine" ;;
   Pass_call call "techmap" ;;
   Pass_call call "dfflibmap -prepare -liberty +/greenpak4/gp_dff.lib" ;;
   Pass_call call "opt -fast" ;;
   when (retime o) (Pass_call call "abc -dff")) s
  = replay call (map EvCall (fine_body o)) s.
Proof. unfold fine_body. destruct (retime o); run_calls. Qed.

Lemma map_luts_body_replay (o : options) (s : state Design) :
  (when (part o =? "SLG46140V") (Pass_call call "nlutmap -luts 0,6,8,2") ;;
   when (part o =? "SLG46620V") (Pass_call call "nlutmap -luts 2,8,16,2") ;;
   when (part o =? "SLG46621V") (Pass_call call "nlutmap -luts 2,8,16,2") ;;
   Pass_call call "clean") s
  = replay call (map EvCall (map_luts_body o)) s.
Proof.
  unfold map_luts_body.
  destruct (part o =? "SLG46140V"), (part o =? "SLG46620V"),
    (part o =? "SLG46621V"); run_calls.
Qed.

Lemma map_cells_body_replay (s : state Design) :
  (Pass_call call "dfflibmap -liberty +/greenpak4/gp_dff.lib" ;;
   Pass_call call "techmap -map +/greenpak4/cells_map.v" ;;
   Pass_call call "dffinit -ff GP_DFF Q INIT" ;;
   Pass_call call "dffinit -ff GP_DFFR Q INIT" ;;
   Pass_call call "dffinit -ff GP_DFFS Q INIT" ;;
   Pass_call call "dffinit -ff GP_DFFSR Q INIT" ;;
   Pass_call call "clean") s
  = replay call (map EvCall map_cells_body) s.
Proof. run_calls. Qed.

Lemma check_body_replay (s : state Design) :
  (Pass_call call "hierarchy -check" ;;
   Pass_call call "stat" ;;
   Pass_call call "check -noinit") s
  = replay call (map EvCall check_body) s.
Proof. run_calls. Qed.

Lemma json_body_replay (o : options) (s : state Design) :
  (Pass_call call "splitnets" ;;
   when (negb (empty (json_file o)))
        (Pass_call call ("write_json " ++ c_str (json_file o))%string)) s
  = replay call (map EvCall (json_body o)) s.
Proof. unfold json_body. destruct (empty (json_file o)); run_calls. Qed.

(** A guarded block: the label check, then the body when it returned
    true. *)
Lemma guarded_stage (o : options) (l : string) (B : M Design unit)
  (body : list string) :
  (forall s, B s = replay call (map EvCall body) s) ->
  forall s,
    (b <- check_label_ref o l ;; when b B) s
    = replay call
        (stage_events l (check_label (active s) (run_from o) (run_to o) l) body)
        s.
Proof.
  intros HB s. unfold bind at 1, check_label_ref.
  unfold stage_events. simpl replay. unfold bind at 1, set_label.
  destruct (check_label (active s) (run_from o) (run_to o) l); simpl.
  - apply HB.
  - reflexivity.
Qed.

(** Two blocks in sequence walk the table one entry further. *)
Lemma walk_cons_replay (o : options) (X R : M Design unit) (l : string)
  (body : list string) (st : list (string * list string)) :
  (forall s, X s = replay call
     (stage_events l (check_label (active s) (run_from o) (run_to o) l) body)
     s) ->
  (forall s, R s = replay call (walk (run_from o) (run_to o) (active s) st) s) ->
  forall s,
    (X ;; R) s
    = replay call (walk (run_from o) (run_to o) (active s) ((l, body) :: st)) s.
Proof.
  intros HX HR s. rewrite walk_cons, replay_app. unfold bind. rewrite HX.
  destruct (replay call
              (stage_events l
                 (check_label (active s) (run_from o) (run_to o) l) body) s)
    as [[[]|e] s'] eqn:E; [|reflexivity].
  rewrite HR. now rewrite (replay_stage_active _ _ _ _ _ E).
Qed.

Lemma walk_last_replay (o : options) (X : M Design unit) (l : string)
  (body : list string) :
  (forall s, X s = replay call
     (stage_events l (check_label (active s) (run_from o) (run_to o) l) body)
     s) ->
  forall s,
    X s = replay call (walk (run_from o) (run_to o) (active s) [(l, body)]) s.
Proof.
  intros HX s. simpl. rewrite app_nil_r. apply HX.
Qed.

(** Without [flatten] the second block does nothing at all. *)
Lemma stage_flatten_off (o : options) (s : state Design) :
  flatten o = false -> stage_flatten call o s = (Done tt, s).
Proof.
  intros F. unfold stage_flatten, bind, and_then. rewrite F. reflexivity.
Qed.

Lemma stage_flatten_on (o : options) (s : state Design) :
  flatten o = true ->
  stage_flatten call o s
  = replay call
      (stage_events "flatten"
         (check_label (active s) (run_from o) (run_to o) "flatten")
         flatten_body) s.
Proof.
  intros F. unfold stage_flatten, and_then. rewrite F.
  apply (guarded_stage o "flatten" _ flatten_body).
  intros s0. apply flatten_body_replay.
Qed.

Lemma tail_replay (o : options) (s : state Design) :
  (stage_coarse call o ;;
   stage_fine call o ;;
   stage_map_luts call o ;;
   stage_map_cells call o ;;
   stage_check call o ;;
   stage_json call o) s
  = replay call
      (walk (run_from o) (run_to o) (active s)
         ([("coarse", coarse_body); ("fine", fine_body o)]
          ++ stages_after_fine o)) s.
Proof.
  revert s.
  apply walk_cons_replay;
    [apply guarded_stage; intros; apply coarse_body_replay|].
  apply walk_cons_replay;
    [apply guarded_stage; intros; apply fine_body_replay|].
  apply walk_cons_replay;
    [apply guarded_stage; intros; apply map_luts_body_replay|].
  apply walk_cons_replay;
    [apply guarded_stage; intros; apply map_cells_body_replay|].
  apply walk_cons_replay;
    [apply guarded_stage; intros; apply check_body_replay|].
  apply walk_last_replay.
  apply guarded_stage; intros; apply json_body_replay.
Qed.

(** The eight blocks replay the walk over the table of the stages whose
    label is checked. *)
Lemma run_stages_replay (o : options) (s : state Design) :
  run_stages call o s
  = replay call (walk (run_from o) (run_to o) (active s) (stages o)) s.
Proof.
  unfold run_stages, stages, stages_before_fine.
  destruct (flatten o) eqn:F.
  - revert s.
    apply walk_cons_replay;
      [apply guarded_stage; intros; apply begin_body_replay|].
    apply walk_cons_replay; [intros; now apply stage_flatten_on|].
    intros s. apply tail_replay.
  - revert s.
    apply walk_cons_replay;
      [apply guarded_stage; intros; apply begin_body_replay|].
    intros s. unfold bind at 1. rewrite stage_flatten_off by exact F.
    apply tail_replay.
Qed.

(** ** The whole run *)

Lemma run_config_unselected (o : options) (d : Design) :
  full_selection d = false ->
  run_config full_selection call o (start d)
  = (Abort (CmdError
       ("This comannd only operates on fully selected designs!" ++ nl)%string),
     start d).
Proof.
  intros Hs. unfold run_config, bind, when. simpl. rewrite Hs. reflexivity.
Qed.

Lemma run_config_invalid (o : options) (d : Design) :
  full_selection d = true ->
  invalid_part (part o) = true ->
  run_config full_selection call o (start d)
  = (Abort (CmdError
       ("Invalid part name: '" ++ c_str (part o) ++ "'" ++ nl)%string),
     start d).
Proof.
  intros Hs Hp. unfold run_config, bind, when. simpl. rewrite Hs, Hp.
  reflexivity.
Qed.

Lemma run_config_valid (o : options) (d : Design) :
  full_selection d = true ->
  invalid_part (part o) = false ->
  run_config full_selection call o (start d)
  = replay call (plan o)
      {| active := empty (run_from o); design := d; trace := [] |}.
Proof.
  intros Hs Hp. unfold run_config, bind, when. simpl. rewrite Hs, Hp. simpl.
  unfold init_active. simpl. rewrite run_stages_replay. reflexivity.
Qed.

(** With a dispatcher that never fails, a valid run ends normally and
    leaves the plan as its trace. *)
Lemma run_total (o : options) (d : Design) :
  (forall d c, fst (call d c) = true) ->
  full_selection d = true ->
  invalid_part (part o) = false ->
  fst (run_config full_selection call o (start d)) = Done tt /\
  trace (snd (run_config full_selection call o (start d))) = plan o.
Proof.
  intros Hok Hs Hp. rewrite run_config_valid by assumption.
  apply (replay_total (plan o)
           {| active := empty (run_from o); design := d; trace := [] |} Hok).
Qed.

(** A plan without commands runs to its end with every dispatcher. *)
Lemma run_quiet (o : options) (d : Design) :
  full_selection d = true ->
  invalid_part (part o) = false ->
  calls_of (plan o) = [] ->
  fst (run_config full_selection call o (start d)) = Done tt /\
  design (snd (run_config full_selection call o (start d))) = d /\
  trace (snd (run_config full_selection call o (start d))) = plan o.
Proof.
  intros Hs Hp Hq. rewrite run_config_valid by assumption.
  apply (replay_labels (plan o)
           {| active := empty (run_from o); design := d; trace := [] |} Hq).
Qed.

(** Whatever happens, the trace of a run is an initial part of the plan. *)
Lemma run_prefix (o : options) (d : Design) :
  exists pre post,
    plan o = pre ++ post /\
    trace (snd (run_config full_selection call o (start d))) = pre.
Proof.
  destruct (full_selection d) eqn:Hs.
  - destruct (invalid_part (part o)) eqn:Hp.
    + rewrite run_config_invalid by assumption. now exists [], (plan o).
    + rewrite run_config_valid by assumption.
      destruct (replay_prefix (plan o)
                  {| active := empty (run_from o); design := d; trace := [] |})
        as (pre & post & E & T).
      exists pre, post. split; [exact E|exact T].
  - rewrite run_config_unselected by assumption. now exists [], (plan o).
Qed.

Lemma run_calls_in_plan (o : options) (d : Design) (c : string) :
  In c (calls_of (trace (snd (run_config full_selection call o (start d))))) ->
  In c (calls_of (plan o)).
Proof.
  destruct (run_prefix o d) as (pre & post & E & T). rewrite T, E.
  rewrite calls_of_app. intros H. apply in_or_app. now left.
Qed.

Lemma run_events_in_plan (o : options) (d : Design) (e : event) :
  In e (trace (snd (run_config full_selection call o (start d)))) ->
  In e (plan o).
Proof.
  destruct (run_prefix o d) as (pre & post & E & T). rewrite T, E.
  intros H. apply in_or_app. now left.
Qed.

(** * The properties of the specification *)

(** C1.  With part SLG46621V, no run range, flattening on, retiming off and
    the JSON file /tmp/out.json, and a dispatcher that never fails, the run
    ends normally and its trace is the eight stages in the fixed order, each
    with its label check returning true and its body dispatched: [map_luts]
    calls the LUT mapper with the budget 2,8,16,2, and the last command
    dispatched writes the JSON file /tmp/out.json.  The top option reaches
    [hierarchy] as [%s] formats it. *)
Theorem C1_default_flow (top : string) (d : Design) :
  (forall d c, fst (call d c) = true) ->
  full_selection d = true ->
  let o := {| top_opt := top; part := "SLG46621V"; run_from := "";
              run_to := ""; json_file := "/tmp/out.json";
              flatten := true; retime := false |} in
  let r := run_config full_selection call o (start d) in
  fst r = Done tt /\
  trace (snd r)
  = [EvLabel "begin" true;
     EvCall "read_verilog -lib +/greenpak4/cells_sim.v";
     EvCall ("hierarchy -check " ++ c_str top)%string;
     EvLabel "flatten" true;
     EvCall "proc";
     EvCall "flatten";
     EvCall "tribuf -logic";
     EvLabel "coarse" true;
     EvCall "synth -run coarse";
     EvLabel "fine" true;
     EvCall "greenpak4_counters";
     EvCall "clean";
     EvCall "opt -fast -mux_undef -undriven -fine";
     EvCall "memory_map";
     EvCall "opt -undriven -fine";
     EvCall "techmap";
     EvCall "dfflibmap -prepare -liberty +/greenpak4/gp_dff.lib";
     EvCall "opt -fast";
     EvLabel "map_luts" true;
     EvCall "nlutmap -luts 2,8,16,2";
     EvCall "clean";
     EvLabel "map_cells" true;
     EvCall "dfflibmap -liberty +/greenpak4/gp_dff.lib";
     EvCall "techmap -map +/greenpak4/cells_map.v";
     EvCall "dffinit -ff GP_DFF Q INIT";
     EvCall "dffinit -ff GP_DFFR Q INIT";
     EvCall "dffinit -ff GP_DFFS Q INIT";
     EvCall "dffinit -ff GP_DFFSR Q INIT";
     EvCall "clean";
     EvLabel "check" true;
     EvCall "hierarchy -check";
     EvCall "stat";
     EvCall "check -noinit";
     EvLabel "json" true;
     EvCall "splitnets";
     EvCall "write_json /tmp/out.json"] /\
  last (calls_of (trace (snd r))) "" = "write_json /tmp/out.json".
Proof.
  intros Hok Hs o r.
  destruct (run_total o d Hok Hs eq_refl) as [Hr Ht].
  subst r. rewrite Hr, Ht. repeat split; reflexivity.
Qed.

(** C2.  With run_from = run_to = "fine" a valid run ends normally without
    dispatching a single command and leaves the design as it was: every
    label check returns false, the one of "fine" included, because
    [check_label] on a label equal to both run_from and run_to sets the flag
    and clears it again in the same call. *)
Theorem C2_fine_to_fine (top p json : string) (fl rt : bool) (d : Design) :
  full_selection d = true ->
  invalid_part p = false ->
  let o := {| top_opt := top; part := p; run_from := "fine";
              run_to := "fine"; json_file := json;
              flatten := fl; retime := rt |} in
  let r := run_config full_selection call o (start d) in
  fst r = Done tt /\
  calls_of (trace (snd r)) = [] /\
  design (snd r) = d /\
  In ("fine", false) (checks_of (trace (snd r))) /\
  Forall (fun c => snd c = false) (checks_of (trace (snd r))) /\
  (forall a l, check_label a l l l = false).
Proof.
  intros Hs Hp o r.
  assert (Hq : calls_of (plan o) = []) by (destruct fl; reflexivity).
  destruct (run_quiet o d Hs Hp Hq) as (Hr & Hd & Ht).
  subst r. rewrite Hr, Hd, Ht, Hq.
  repeat split; try reflexivity.
  - destruct fl; simpl; tauto.
  - destruct fl; simpl; repeat constructor.
  - apply check_label_same.
Qed.

(** C3, as the code has it.  With a dispatcher that never fails, a valid
    run checks, once each and in the fixed order, the labels of the stages
    of the table of the specification, except that the label "flatten" is
    checked only when the flatten flag is set; after each check the body of
    that stage is dispatched exactly when the check returned true. *)
Theorem C3_sequencer_checks (o : options) (d : Design) :
  (forall d c, fst (call d c) = true) ->
  full_selection d = true ->
  invalid_part (part o) = false ->
  let r := run_config full_selection call o (start d) in
  fst r = Done tt /\
  trace (snd r)
  = walk (run_from o) (run_to o) (empty (run_from o))
      (if flatten o then spec_stage_table o
       else filter (fun e => negb (fst e =? "flatten")) (spec_stage_table o)) /\
  map fst (checks_of (trace (snd r)))
  = (if flatten o then stage_labels
     else ["begin"; "coarse"; "fine"; "map_luts"; "map_cells"; "check";
           "json"]).
Proof.
  intros Hok Hs Hp r.
  destruct (run_total o d Hok Hs Hp) as [Hr Ht].
  subst r. rewrite Hr, Ht. unfold plan.
  repeat split.
  - now rewrite stages_spec_table.
  - rewrite checked_labels_walk. apply stages_labels.
Qed.

(** C4, as the code has it.  With part SLG46140V and the run range
    map_luts:check, a valid run with a dispatcher that never fails
    dispatches the bodies of two stages, [map_luts] and then [map_cells]:
    the LUT mapper is called with the budget 0,6,8,2, and the stage [check]
    and every other stage dispatch nothing. *)
Theorem C4_map_luts_to_check (top json : string) (fl rt : bool) (d : Design) :
  (forall d c, fst (call d c) = true) ->
  full_selection d = true ->
  let o := {| top_opt := top; part := "SLG46140V"; run_from := "map_luts";
              run_to := "check"; json_file := json;
              flatten := fl; retime := rt |} in
  let r := run_config full_selection call o (start d) in
  fst r = Done tt /\
  calls_of (trace (snd r))
  = ["nlutmap -luts 0,6,8,2";
     "clean";
     "dfflibmap -liberty +/greenpak4/gp_dff.lib";
     "techmap -map +/greenpak4/cells_map.v";
     "dffinit -ff GP_DFF Q INIT";
     "dffinit -ff GP_DFFR Q INIT";
     "dffinit -ff GP_DFFS Q INIT";
     "dffinit -ff GP_DFFSR Q INIT";
     "clean"] /\
  checks_of (trace (snd r))
  = [("begin", false)]
    ++ (if fl then [("flatten", false)] else [])
    ++ [("coarse", false); ("fine", false); ("map_luts", true);
        ("map_cells", true); ("check", false); ("json", false)].
Proof.
  intros Hok Hs o r.
  destruct (run_total o d Hok Hs eq_refl) as [Hr Ht].
  subst r. rewrite Hr, Ht.
  repeat split; destruct fl; reflexivity.
Qed.

(** C5, as the code has it.  With an empty run range, a valid run with a
    dispatcher that never fails goes through the stages once each in the
    fixed order begin, flatten, coarse, fine, map_luts, map_cells, check,
    json: every label check returns true, since the flag starts true and no
    label is empty, and every body is dispatched, except that the stage
    flatten is neither checked nor dispatched when the flatten flag is
    off. *)
Theorem C5_empty_range (o : options) (d : Design) :
  (forall d c, fst (call d c) = true) ->
  full_selection d = true ->
  invalid_part (part o) = false ->
  run_from o = "" ->
  run_to o = "" ->
  let r := run_config full_selection call o (start d) in
  fst r = Done tt /\
  trace (snd r)
  = stage_events "begin" true (begin_body o)
    ++ (if flatten o then stage_events "flatten" true flatten_body else [])
    ++ stage_events "coarse" true coarse_body
    ++ stage_events "fine" true (fine_body o)
    ++ stage_events "map_luts" true (map_luts_body o)
    ++ stage_events "map_cells" true map_cells_body
    ++ stage_events "check" true check_body
    ++ stage_events "json" true (json_body o) /\
  calls_of (trace (snd r))
  = begin_body o
    ++ (if flatten o then flatten_body else [])
    ++ coarse_body
    ++ fine_body o
    ++ map_luts_body o
    ++ map_cells_body
    ++ check_body
    ++ json_body o.
Proof.
  intros Hok Hs Hp Hf Ht r.
  destruct (run_total o d Hok Hs Hp) as [Hr Htr].
  subst r. rewrite Hr, Htr.
  assert (P : plan o
    = stage_events "begin" true (begin_body o)
      ++ (if flatten o then stage_events "flatten" true flatten_body else [])
      ++ stage_events "coarse" true coarse_body
      ++ stage_events "fine" true (fine_body o)
      ++ stage_events "map_luts" true (map_luts_body o)
      ++ stage_events "map_cells" true map_cells_body
      ++ stage_events "check" true check_body
      ++ stage_events "json" true (json_body o)).
  { unfold plan, stages, stages_before_fine, stages_after_fine.
    rewrite Hf, Ht. destruct (flatten o); simpl app.
    - rewrite !walk_cons. simpl check_label. simpl walk.
      now rewrite app_nil_r.
    - rewrite !walk_cons. simpl check_label. simpl walk.
      now rewrite app_nil_r. }
  rewrite P. repeat split.
  rewrite !calls_of_app, !calls_of_stage.
  destruct (flatten o); [now rewrite calls_of_stage|reflexivity].
Qed.

(** C6.  A part name outside SLG46140V, SLG46620V and SLG46621V makes the
    run stop with a command error before the first stage: nothing is
    recorded, so no label is checked and no command dispatched, and the
    design is the one the run started with.  On a fully selected design the
    error is the one about the part name. *)
Theorem C6_invalid_part_rejected (o : options) (d : Design) :
  ~ In (part o) ["SLG46140V"; "SLG46620V"; "SLG46621V"] ->
  let r := run_config full_selection call o (start d) in
  fst r
  = Abort (CmdError
      (if full_selection d
       then ("Invalid part name: '" ++ c_str (part o) ++ "'" ++ nl)%string
       else ("This comannd only operates on fully selected designs!"
             ++ nl)%string)) /\
  trace (snd r) = [] /\
  calls_of (trace (snd r)) = [] /\
  design (snd r) = d.
Proof.
  intros Hp r. apply invalid_part_iff in Hp. subst r.
  destruct (full_selection d) eqn:Hs.
  - rewrite run_config_invalid by assumption. repeat split.
  - rewrite run_config_unselected by assumption. repeat split.
Qed.

(** C7.  With the flatten flag off, none of the three commands of the
    flatten body (proc, flatten, tribuf -logic) is dispatched, for every
    run range, every other option, every design and every dispatcher. *)
Theorem C7_noflatten_body_skipped (o : options) (d : Design) :
  flatten o = false ->
  let r := run_config full_selection call o (start d) in
  ~ In "proc" (calls_of (trace (snd r))) /\
  ~ In "flatten" (calls_of (trace (snd r))) /\
  ~ In "tribuf -logic" (calls_of (trace (snd r))).
Proof.
  intros F r. subst r.
  assert (G : forall c, In c flatten_body ->
    ~ In c (calls_of
              (trace (snd (run_config full_selection call o (start d)))))).
  { intros c Hc H. apply run_calls_in_plan in H.
    apply in_calls_walk in H. destruct H as (l & body & Hin & Hb).
    exact (flatten_body_elsewhere o c l body F Hc Hin Hb). }
  repeat split; apply G; unfold flatten_body; simpl; tauto.
Qed.

(** C8.  Without the retime flag [abc -dff] is never dispatched, whatever
    the dispatcher does.  With the flag, in a valid run with a dispatcher
    that never fails in which the check of the label "fine" returned true,
    the trace holds [abc -dff] exactly once: as the last command of the fine
    stage, directly after [opt -fast] and directly before the check of the
    label "map_luts", which no earlier part of the trace contains. *)
Theorem C8_retime_once (o : options) (d : Design) :
  let r := run_config full_selection call o (start d) in
  (retime o = false -> ~ In "abc -dff" (calls_of (trace (snd r)))) /\
  ((forall d c, fst (call d c) = true) ->
   full_selection d = true ->
   invalid_part (part o) = false ->
   retime o = true ->
   In (EvLabel "fine" true) (trace (snd r)) ->
   exists pre b post,
     trace (snd r)
     = pre
       ++ [EvLabel "fine" true;
           EvCall "greenpak4_counters";
           EvCall "clean";
           EvCall "opt -fast -mux_undef -undriven -fine";
           EvCall "memory_map";
           EvCall "opt -undriven -fine";
           EvCall "techmap";
           EvCall "dfflibmap -prepare -liberty +/greenpak4/gp_dff.lib";
           EvCall "opt -fast";
           EvCall "abc -dff";
           EvLabel "map_luts" b]
       ++ post /\
     ~ In (EvCall "abc -dff") pre /\
     ~ In (EvCall "abc -dff") post /\
     (forall b', ~ In (EvLabel "map_luts" b') pre)).
Proof.
  intros r. subst r. split.
  - intros R H. apply run_calls_in_plan in H.
    apply in_calls_walk in H. destruct H as (l & body & Hin & Hb).
    exact (abc_dff_needs_retime o l body R Hin Hb).
  - intros Hok Hs Hp R.
    destruct (run_total o d Hok Hs Hp) as [_ Ht]. rewrite Ht. clear Ht.
    unfold plan, stages. rewrite walk_app.
    set (f := run_from o). set (t := run_to o).
    set (a1 := walk_active f t (empty f) (stages_before_fine o)).
    set (pre := walk f t (empty f) (stages_before_fine o)).
    change ([("fine", fine_body o)] ++ stages_after_fine o)
      with (("fine", fine_body o) :: stages_after_fine o).
    rewrite walk_cons.
    set (af := check_label a1 f t "fine").
    unfold stages_after_fine. rewrite walk_cons.
    set (b := check_label af f t "map_luts").
    set (rest := walk f t b [("map_cells", map_cells_body);
                             ("check", check_body); ("json", json_body o)]).
    intros Hfine.
    assert (Haf : af = true).
    { apply in_app_or in Hfine. destruct Hfine as [H|H].
      - apply in_label_walk, before_fine_labels in H.
        destruct H as [H|[H|H]]; discriminate.
      - apply in_app_or in H. destruct H as [H|H].
        + unfold stage_events in H. destruct H as [H|H].
          * now inversion H.
          * destruct af; [reflexivity|destruct H].
        + apply in_app_or in H. destruct H as [H|H].
          * unfold stage_events in H. destruct H as [H|H]; [discriminate|].
            destruct b; [|destruct H].
            apply in_map_iff in H. destruct H as (c & Hc & _). discriminate.
          * apply in_label_walk in H. simpl in H.
            destruct H as [H|[H|[H|[]]]]; discriminate. }
    rewrite Haf. unfold fine_body. rewrite R.
    exists pre, b, ((if b then map EvCall (map_luts_body o) else []) ++ rest).
    split; [reflexivity|]. split; [|split].
    + intros H. apply in_call_iff, in_calls_walk in H.
      destruct H as (l & body & Hin & Hb).
      apply (abc_dff_elsewhere o l body); [|exact Hb].
      apply in_or_app. now left.
    + intros H. apply in_app_or in H. destruct H as [H|H].
      * destruct b; [|destruct H].
        apply in_map_iff in H. destruct H as (c & Hc & Hb).
        inversion Hc. subst c.
        apply (abc_dff_elsewhere o "map_luts" (map_luts_body o)); [|exact Hb].
        apply in_or_app. right. unfold stages_after_fine. simpl. now left.
      * apply in_call_iff, in_calls_walk in H.
        destruct H as (l & body & Hin & Hb).
        apply (abc_dff_elsewhere o l body); [|exact Hb].
        apply in_or_app. right. unfold stages_after_fine. simpl. now right.
    + intros b' H. apply in_label_walk, before_fine_labels in H.
      destruct H as [H|[H|H]]; discriminate.
Qed.

(** C9.  A valid run with a dispatcher that never fails ends normally
    whatever the run range is.  If run_from is not empty and is none of the
    eight labels, the window never opens: every label check returns false
    and no command is dispatched.  If run_to is none of the eight labels,
    the window never closes: with an empty run_from every label check
    returns true and every checked stage runs; with run_from the label of
    a checked stage, the stages before it are skipped and it and every
    later stage run, to the end; and in every case a label check that
    returned true is followed by true checks only. *)
Theorem C9_unmatched_labels (o : options) (d : Design) :
  (forall d c, fst (call d c) = true) ->
  full_selection d = true ->
  invalid_part (part o) = false ->
  let r := run_config full_selection call o (start d) in
  fst r = Done tt /\
  (~ In (run_from o) stage_labels ->
   run_from o <> "" ->
   calls_of (trace (snd r)) = [] /\
   Forall (fun c => snd c = false) (checks_of (trace (snd r)))) /\
  (~ In (run_to o) stage_labels ->
   (run_from o = "" ->
    trace (snd r) = all_open (stages o) /\
    calls_of (trace (snd r)) = bodies (stages o)) /\
   (forall s1 b s2,
      stages o = s1 ++ (run_from o, b) :: s2 ->
      trace (snd r) = all_closed s1 ++ all_open ((run_from o, b) :: s2) /\
      calls_of (trace (snd r)) = b ++ bodies s2) /\
   (forall l1 l l2,
      checks_of (trace (snd r)) = l1 ++ (l, true) :: l2 ->
      Forall (fun c => snd c = true) l2)).
Proof.
  intros Hok Hs Hp r.
  destruct (run_total o d Hok Hs Hp) as [Hr Ht].
  subst r. rewrite Hr, Ht. clear Hr Ht. split; [reflexivity|]. split.
  - intros Hf Hne. unfold plan.
    assert (E : empty (run_from o) = false)
      by (destruct (run_from o); [congruence|reflexivity]).
    rewrite E, walk_closed
      by (intros H; apply Hf; exact (stages_labels_incl o _ H)).
    split; [apply calls_of_labels|].
    rewrite checks_of_labels. apply all_false_labels.
  - intros Hto.
    assert (T : ~ In (run_to o) (map fst (stages o)))
      by (intros H; apply Hto; exact (stages_labels_incl o _ H)).
    split; [|split].
    + intros Hf. unfold plan. rewrite Hf. simpl empty.
      rewrite walk_all_open by exact T.
      split; [reflexivity|apply calls_of_all_open].
    + intros s1 b s2 Hst.
      assert (E : empty (run_from o) = false).
      { apply (stages_label_nonempty o). rewrite Hst, map_app.
        apply in_or_app. right. now left. }
      assert (ND := stages_nodup o).
      rewrite Hst in ND, T.
      assert (N : run_from o <> run_to o).
      { intros X. apply T. rewrite map_app. apply in_or_app. right.
        left. exact X. }
      assert (T2 : ~ In (run_to o) (map fst s2)).
      { intros X. apply T. rewrite map_app. apply in_or_app. right.
        now right. }
      unfold plan. rewrite E, Hst, walk_from by assumption.
      split; [reflexivity|].
      rewrite calls_of_app, calls_of_all_closed, calls_of_all_open.
      reflexivity.
    + intros l1 l l2. unfold plan. apply walk_never_closes. exact T.
Qed.

(** C10.  With the flatten flag off, a valid run never checks the label
    "flatten".  So with run_from = "flatten" the window never opens: the run
    ends normally with no command dispatched, whatever run_to is.  And with
    run_to = "flatten" nothing closes the window: the run is, outcome and
    final state, the run of the same options with an empty run_to. *)
Theorem C10_noflatten_label_unchecked (o : options) (d : Design) :
  flatten o = false ->
  full_selection d = true ->
  invalid_part (part o) = false ->
  let r := run_config full_selection call o (start d) in
  (forall b, ~ In (EvLabel "flatten" b) (trace (snd r))) /\
  (run_from o = "flatten" ->
   fst r = Done tt /\ calls_of (trace (snd r)) = []) /\
  (run_to o = "flatten" ->
   r = run_config full_selection call (with_run_to o "") (start d)).
Proof.
  intros F Hs Hp r. subst r.
  assert (L : map fst (stages o)
              = ["begin"; "coarse"; "fine"; "map_luts"; "map_cells"; "check";
                 "json"])
    by (rewrite stages_labels, F; reflexivity).
  assert (NF : ~ In "flatten" (map fst (stages o))).
  { rewrite L. simpl. intros H.
    repeat (destruct H as [H|H]; [discriminate|]). destruct H. }
  split; [|split].
  - intros b H. apply run_events_in_plan in H.
    apply in_label_walk in H. exact (NF H).
  - intros Hf.
    assert (Q : calls_of (plan o) = []).
    { unfold plan. rewrite Hf. simpl empty.
      rewrite walk_closed by exact NF. apply calls_of_labels. }
    destruct (run_quiet o d Hs Hp Q) as (Hr & _ & Ht).
    rewrite Hr, Ht. split; [reflexivity|exact Q].
  - intros Hto.
    rewrite run_config_valid by assumption.
    rewrite run_config_valid by assumption.
    f_equal. unfold plan.
    change (stages (with_run_to o "")) with (stages o).
    change (run_from (with_run_to o "")) with (run_from o).
    change (run_to (with_run_to o "")) with "".
    rewrite Hto. apply walk_run_to_irrelevant; [exact NF|].
    rewrite L. simpl. intros H.
    repeat (destruct H as [H|H]; [discriminate|]). destruct H.
Qed.

End Facts.

(** * The pass on whole command lines *)

(** The run range map_luts:check, given on the command line. *)
Example execute_map_luts_to_check :
  let r := execute selected recorder nothing_left
             ["synth_greenpak4"; "-part"; "SLG46140V"; "-run"; "map_luts:check"]
             (start []) in
  fst r = Done tt /\
  design (snd r) = ["nlutmap -luts 0,6,8,2"; "clean"] ++ map_cells_body.
Proof. vm_compute. split; reflexivity. Qed.

(** A run range without a colon stops the option loop at [-run]; what is
    left over goes to [Pass::extra_args] and no stage runs when that call
    does not come back. *)
Example execute_range_without_colon :
  let r := execute selected recorder nothing_left
             ["synth_greenpak4"; "-run"; "foo"] (start []) in
  fst r = Abort (CmdError "extra_args") /\ trace (snd r) = [].
Proof. vm_compute. split; reflexivity. Qed.

(** * The properties on the recording dispatcher *)

Lemma C1_default_flow_witness :
  (forall d c, fst (recorder d c) = true) /\
  selected [] = true /\
  (let r := run_config selected recorder
              {| top_opt := "-auto-top"; part := "SLG46621V"; run_from := "";
                 run_to := ""; json_file := "/tmp/out.json";
                 flatten := true; retime := false |} (start []) in
   fst r = Done tt /\
   In "nlutmap -luts 2,8,16,2" (calls_of (trace (snd r))) /\
   last (calls_of (trace (snd r))) "" = "write_json /tmp/out.json").
Proof.
  split; [reflexivity|]. split; [reflexivity|].
  destruct (C1_default_flow (list string) selected recorder "-auto-top" []
              (fun _ _ => eq_refl) eq_refl) as (H1 & H2 & H3).
  split; [exact H1|]. split; [|exact H3].
  rewrite H2. simpl. tauto.
Defined.

Lemma C2_fine_to_fine_witness :
  selected [] = true /\
  invalid_part "SLG46621V" = false /\
  (let r := run_config selected recorder
              {| top_opt := "-auto-top"; part := "SLG46621V";
                 run_from := "fine"; run_to := "fine"; json_file := "";
                 flatten := true; retime := false |} (start []) in
   fst r = Done tt /\ calls_of (trace (snd r)) = [] /\ design (snd r) = []).
Proof.
  split; [reflexivity|]. split; [reflexivity|].
  destruct (C2_fine_to_fine (list string) selected recorder "-auto-top"
              "SLG46621V" "" true false [] eq_refl eq_refl)
    as (H1 & H2 & H3 & _).
  split; [exact H1|]. split; [exact H2|exact H3].
Defined.

(** C3 as the specification words it fails: without the flatten flag and
    with run_from = "flatten", the code checks seven labels, not eight, and
    dispatches nothing, where a sequencer that checks every label opens the
    window at "flatten" and runs the later stages. *)
Lemma C3_counterexample :
  let o := {| top_opt := "-auto-top"; part := "SLG46621V";
              run_from := "flatten"; run_to := ""; json_file := "";
              flatten := false; retime := false |} in
  let r := run_config selected recorder o (start []) in
  fst r = Done tt /\
  map fst (checks_of (trace (snd r))) <> stage_labels /\
  trace (snd r) <> spec_sequencer o /\
  calls_of (trace (snd r)) = [] /\
  In "synth -run coarse" (calls_of (spec_sequencer o)).
Proof.
  vm_compute. repeat split; try discriminate. tauto.
Qed.

Lemma C3_sequencer_checks_witness :
  (forall d c, fst (recorder d c) = true) /\
  selected [] = true /\
  invalid_part (part default_options) = false /\
  (let r := run_config selected recorder default_options (start []) in
   fst r = Done tt /\
   trace (snd r) = spec_sequencer default_options /\
   map fst (checks_of (trace (snd r))) = stage_labels).
Proof.
  split; [reflexivity|]. split; [reflexivity|]. split; [reflexivity|].
  exact (C3_sequencer_checks (list string) selected recorder default_options []
           (fun _ _ => eq_refl) eq_refl eq_refl).
Defined.

(** C4 as the specification words it fails: between the labels map_luts
    and check lies the stage map_cells, and its body runs too. *)
Lemma C4_counterexample :
  let o := {| top_opt := "-auto-top"; part := "SLG46140V";
              run_from := "map_luts"; run_to := "check"; json_file := "";
              flatten := true; retime := false |} in
  let r := run_config selected recorder o (start []) in
  fst r = Done tt /\
  calls_of (trace (snd r)) <> ["nlutmap -luts 0,6,8,2"; "clean"] /\
  In (EvLabel "map_cells" true) (trace (snd r)) /\
  In "dffinit -ff GP_DFF Q INIT" (calls_of (trace (snd r))).
Proof.
  vm_compute. repeat split; try discriminate; tauto.
Qed.

Lemma C4_map_luts_to_check_witness :
  (forall d c, fst (recorder d c) = true) /\
  selected [] = true /\
  (let r := run_config selected recorder
              {| top_opt := "-auto-top"; part := "SLG46140V";
                 run_from := "map_luts"; run_to := "check"; json_file := "";
                 flatten := true; retime := false |} (start []) in
   fst r = Done tt /\
   calls_of (trace (snd r))
   = ["nlutmap -luts 0,6,8,2"; "clean"] ++ map_cells_body).
Proof.
  split; [reflexivity|]. split; [reflexivity|].
  destruct (C4_map_luts_to_check (list string) selected recorder "-auto-top"
              "" true false [] (fun _ _ => eq_refl) eq_refl)
    as (H1 & H2 & _).
  split; [exact H1|exact H2].
Defined.

(** C5 as the specification words it fails: with the flatten flag off the
    body of the stage flatten is not dispatched, empty run range or not. *)
Lemma C5_counterexample :
  let o := {| top_opt := "-auto-top"; part := "SLG46621V"; run_from := "";
              run_to := ""; json_file := ""; flatten := false;
              retime := false |} in
  let r := run_config selected recorder o (start []) in
  fst r = Done tt /\
  calls_of (trace (snd r))
  <> begin_body o ++ flatten_body ++ coarse_body ++ fine_body o
     ++ map_luts_body o ++ map_cells_body ++ check_body ++ json_body o /\
  ~ In "proc" (calls_of (trace (snd r))) /\
  map fst (checks_of (trace (snd r))) <> stage_labels.
Proof.
  vm_compute. repeat split; try discriminate.
  intros H. repeat (destruct H as [H|H]; [discriminate|]). destruct H.
Qed.

Lemma C5_empty_range_witness :
  let o := {| top_opt := "-auto-top"; part := "SLG46621V"; run_from := "";
              run_to := ""; json_file := ""; flatten := false;
              retime := false |} in
  (forall d c, fst (recorder d c) = true) /\
  selected [] = true /\
  invalid_part (part o) = false /\
  run_from o = "" /\
  run_to o = "" /\
  (let r := run_config selected recorder o (start []) in
   fst r = Done tt /\
   calls_of (trace (snd r))
   = begin_body o ++ coarse_body ++ fine_body o ++ map_luts_body o
     ++ map_cells_body ++ check_body ++ json_body o).
Proof.
  intros o. do 5 (split; [reflexivity|]).
  destruct (C5_empty_range (list string) selected recorder o []
              (fun _ _ => eq_refl) eq_refl eq_refl eq_refl eq_refl)
    as (H1 & _ & H3).
  split; [exact H1|exact H3].
Defined.

Lemma C6_invalid_part_rejected_witness :
  let o := {| top_opt := "-auto-top"; part := "SLG46533V"; run_from := "";
              run_to := ""; json_file := ""; flatten := true;
              retime := false |} in
  ~ In (part o) ["SLG46140V"; "SLG46620V"; "SLG46621V"] /\
  (let r := run_config selected recorder o (start []) in
   fst r = Abort (CmdError ("Invalid part name: 'SLG46533V'" ++ nl)%string) /\
   trace (snd r) = [] /\
   calls_of (trace (snd r)) = [] /\
   design (snd r) = []).
Proof.
  intros o.
  assert (H : ~ In (part o) ["SLG46140V"; "SLG46620V"; "SLG46621V"]).
  { simpl. intros [X|[X|[X|[]]]]; discriminate X. }
  split; [exact H|].
  exact (C6_invalid_part_rejected (list string) selected recorder o [] H).
Defined.

Lemma C7_noflatten_body_skipped_witness :
  let o := {| top_opt := "-auto-top"; part := "SLG46621V";
              run_from := "begin"; run_to := "fine"; json_file := "";
              flatten := false; retime := false |} in
  flatten o = false /\
  (let r := run_config selected recorder o (start []) in
   ~ In "proc" (calls_of (trace (snd r))) /\
   ~ In "flatten" (calls_of (trace (snd r))) /\
   ~ In "tribuf -logic" (calls_of (trace (snd r)))).
Proof.
  intros o. split; [reflexivity|].
  exact (C7_noflatten_body_skipped (list string) selected recorder o []
           eq_refl).
Defined.

Lemma C8_retime_once_witness :
  let o := {| top_opt := "-auto-top"; part := "SLG46621V"; run_from := "";
              run_to := ""; json_file := ""; flatten := true;
              retime := true |} in
  (forall d c, fst (recorder d c) = true) /\
  selected [] = true /\
  invalid_part (part o) = false /\
  retime o = true /\
  In (EvLabel "fine" true) (trace (snd (run_config selected recorder o (start [])))) /\
  (exists pre b post,
     trace (snd (run_config selected recorder o (start [])))
     = pre
       ++ [EvLabel "fine" true;
           EvCall "greenpak4_counters";
           EvCall "clean";
           EvCall "opt -fast -mux_undef -undriven -fine";
           EvCall "memory_map";
           EvCall "opt -undriven -fine";
           EvCall "techmap";
           EvCall "dfflibmap -prepare -liberty +/greenpak4/gp_dff.lib";
           EvCall "opt -fast";
           EvCall "abc -dff";
           EvLabel "map_luts" b]
       ++ post /\
     ~ In (EvCall "abc -dff") pre /\
     ~ In (EvCall "abc -dff") post /\
     (forall b', ~ In (EvLabel "map_luts" b') pre)).
Proof.
  intros o.
  assert (F : In (EvLabel "fine" true) (trace (snd (run_config selected recorder o (start []))))).
  { vm_compute. do 9 right. left. reflexivity. }
  do 4 (split; [reflexivity|]). split; [exact F|].
  exact (proj2 (C8_retime_once (list string) selected recorder o [])
           (fun _ _ => eq_refl) eq_refl eq_refl eq_refl F).
Defined.

Lemma C9_unmatched_labels_witness :
  let o1 := {| top_opt := "-auto-top"; part := "SLG46621V";
               run_from := "foo"; run_to := "bar"; json_file := "";
               flatten := true; retime := false |} in
  let o2 := {| top_opt := "-auto-top"; part := "SLG46621V";
               run_from := ""; run_to := "bar"; json_file := "";
               flatten := true; retime := false |} in
  let o3 := {| top_opt := "-auto-top"; part := "SLG46621V";
               run_from := "check"; run_to := "bar"; json_file := "";
               flatten := true; retime := false |} in
  (forall d c, fst (recorder d c) = true) /\
  selected [] = true /\
  invalid_part "SLG46621V" = false /\
  (~ In (run_from o1) stage_labels /\
   run_from o1 <> "" /\
   fst (run_config selected recorder o1 (start [])) = Done tt /\
   calls_of (trace (snd (run_config selected recorder o1 (start [])))) = [] /\
   Forall (fun c => snd c = false)
     (checks_of (trace (snd (run_config selected recorder o1 (start [])))))) /\
  (~ In (run_to o2) stage_labels /\
   run_from o2 = "" /\
   trace (snd (run_config selected recorder o2 (start [])))
   = all_open (stages o2) /\
   calls_of (trace (snd (run_config selected recorder o2 (start []))))
   = bodies (stages o2)) /\
  (~ In (run_to o3) stage_labels /\
   stages o3
   = (stages_before_fine o3
      ++ [("fine", fine_body o3); ("map_luts", map_luts_body o3);
          ("map_cells", map_cells_body)])
     ++ (run_from o3, check_body) :: [("json", json_body o3)] /\
   calls_of (trace (snd (run_config selected recorder o3 (start []))))
   = check_body ++ bodies [("json", json_body o3)]).
Proof.
  intros o1 o2 o3.
  assert (L : forall w, (w =? "begin") = false -> (w =? "flatten") = false ->
                        (w =? "coarse") = false -> (w =? "fine") = false ->
                        (w =? "map_luts") = false ->
                        (w =? "map_cells") = false ->
                        (w =? "check") = false -> (w =? "json") = false ->
                        ~ In w stage_labels).
  { intros w E1 E2 E3 E4 E5 E6 E7 E8 X. unfold stage_labels in X. simpl in X.
    repeat (destruct X as [X|X];
            [subst w; discriminate|]).
    destruct X. }
  assert (H1 : ~ In (run_from o1) stage_labels) by (apply L; reflexivity).
  assert (N1 : run_from o1 <> "") by discriminate.
  assert (H2 : ~ In (run_to o2) stage_labels) by (apply L; reflexivity).
  assert (H3 : ~ In (run_to o3) stage_labels) by (apply L; reflexivity).
  do 3 (split; [reflexivity|]). split; [|split].
  - destruct (C9_unmatched_labels (list string) selected recorder o1 []
                (fun _ _ => eq_refl) eq_refl eq_refl) as (A & B & _).
    split; [exact H1|]. split; [exact N1|]. split; [exact A|].
    exact (B H1 N1).
  - destruct (C9_unmatched_labels (list string) selected recorder o2 []
                (fun _ _ => eq_refl) eq_refl eq_refl) as (_ & _ & C).
    split; [exact H2|]. split; [reflexivity|].
    exact (proj1 (C H2) eq_refl).
  - destruct (C9_unmatched_labels (list string) selected recorder o3 []
                (fun _ _ => eq_refl) eq_refl eq_refl) as (_ & _ & C).
    split; [exact H3|]. split; [reflexivity|].
    exact (proj2 (proj1 (proj2 (C H3))
             (stages_before_fine o3
              ++ [("fine", fine_body o3); ("map_luts", map_luts_body o3);
                  ("map_cells", map_cells_body)])
             check_body [("json", json_body o3)] eq_refl)).
Defined.

Lemma C10_noflatten_label_unchecked_witness :
  let o := {| top_opt := "-auto-top"; part := "SLG46621V";
              run_from := "flatten"; run_to := "flatten"; json_file := "";
              flatten := false; retime := false |} in
  flatten o = false /\
  selected [] = true /\
  invalid_part (part o) = false /\
  (let r := run_config selected recorder o (start []) in
   (forall b, ~ In (EvLabel "flatten" b) (trace (snd r))) /\
   (fst r = Done tt /\ calls_of (trace (snd r)) = []) /\
   r = run_config selected recorder (with_run_to o "") (start [])).
Proof.
  intros o. do 3 (split; [reflexivity|]).
  destruct (C10_noflatten_label_unchecked (list string) selected recorder o []
              eq_refl eq_refl eq_refl) as (H1 & H2 & H3).
  split; [exact H1|]. split; [exact (H2 eq_refl)|exact (H3 eq_refl)].
Defined.

(** * The option loop (lines 129-161) *)

(** Induction over a command line two words at a time. *)
Lemma list_pair_ind (P : list string -> Prop) :
  P [] ->
  (forall a, P [a]) ->
  (forall a v tl, P tl -> P (v :: tl) -> P (a :: v :: tl)) ->
  forall l, P l.
Proof.
  intros H0 H1 H2 l.
  assert (G : P l /\ forall a, P (a :: l)).
  { induction l as [|x l [IH1 IH2]].
    - split; auto.
    - split; [apply IH2|]. intros a. apply H2; auto. }
  apply G.
Qed.

(** One turn of the loop: it stops, or takes an option with its value, or
    takes a flag. *)
Lemma parse_args_step (o : options) (i : nat) (a : string) (tl : list string) :
  parse_args o i (a :: tl) = (o, i)
  \/ (exists v tl' o',
        tl = v :: tl' /\
        parse_args o i (a :: tl) = parse_args o' (i + 2) tl' /\
        ((a = "-top" /\ o' = with_top_opt o ("-top " ++ v)%string)
         \/ (a = "-json" /\ o' = with_json_file o v)
         \/ (a = "-part" /\ o' = with_part o v)
         \/ (a = "-run" /\
             exists pos,
               find_colon v = Some pos /\
               o' = with_run_range o (substring 0 pos v)
                      (substr_from (pos + 1) v))))
  \/ (exists o',
        parse_args o i (a :: tl) = parse_args o' (i + 1) tl /\
        ((a = "-noflatten" /\ o' = with_flatten o false)
         \/ (a = "-retime" /\ o' = with_retime o true))).
Proof.
  destruct (a =? "-top") eqn:E1.
  { apply String.eqb_eq in E1. subst a. destruct tl as [|v tl'].
    - left. reflexivity.
    - right. left. exists v, tl', (with_top_opt o ("-top " ++ v)%string).
      repeat split. left. split; reflexivity. }
  destruct (a =? "-json") eqn:E2.
  { apply String.eqb_eq in E2. subst a. destruct tl as [|v tl'].
    - left. reflexivity.
    - right. left. exists v, tl', (with_json_file o v).
      repeat split. right. left. split; reflexivity. }
  destruct (a =? "-part") eqn:E3.
  { apply String.eqb_eq in E3. subst a. destruct tl as [|v tl'].
    - left. reflexivity.
    - right. left. exists v, tl', (with_part o v).
      repeat split. right. right. left. split; reflexivity. }
  destruct (a =? "-run") eqn:E4.
  { apply String.eqb_eq in E4. subst a. destruct tl as [|v tl'].
    - left. reflexivity.
    - destruct (find_colon v) as [pos|] eqn:F.
      + right. left.
        exists v, tl',
          (with_run_range o (substring 0 pos v) (substr_from (pos + 1) v)).
        split; [reflexivity|]. split.
        * simpl. rewrite F. reflexivity.
        * right. right. right. split; [reflexivity|].
          exists pos. split; [exact F|reflexivity].
      + left. simpl. rewrite F. reflexivity. }
  destruct (a =? "-noflatten") eqn:E5.
  { apply String.eqb_eq in E5. subst a. right. right.
    exists (with_flatten o false). split.
    - destruct tl; reflexivity.
    - left. split; reflexivity. }
  destruct (a =? "-retime") eqn:E6.
  { apply String.eqb_eq in E6. subst a. right. right.
    exists (with_retime o true). split.
    - destruct tl; reflexivity.
    - right. split; reflexivity. }
  left. cbn [parse_args]. rewrite E1, E2, E3, E4, E5, E6.
  destruct tl; reflexivity.
Qed.

(** X1.  The loop stops at an index between the one it started from and
    the end of the command line. *)
Theorem parse_args_index_bounds (o : options) (i : nat) (rest : list string) :
  i <= snd (parse_args o i rest) <= i + List.length rest.
Proof.
  revert o i. induction rest as [|a|a v tl IH1 IH2] using list_pair_ind;
    intros o i.
  - simpl. lia.
  - destruct (parse_args_step o i a [])
      as [E|[(v & tl' & o' & T & _)|(o' & E & _)]].
    + rewrite E. simpl. lia.
    + discriminate T.
    + rewrite E. simpl. lia.
  - destruct (parse_args_step o i a (v :: tl))
      as [E|[(v' & tl' & o' & T & E & _)|(o' & E & _)]].
    + rewrite E. simpl. lia.
    + inversion T. subst v' tl'. rewrite E.
      specialize (IH1 o' (i + 2)). simpl. lia.
    + rewrite E. specialize (IH2 o' (i + 1)). simpl in *. lia.
Qed.

(** X2.  A command line the loop reads to its end can be extended: the
    loop then goes on with the rest from the options it had reached. *)
Theorem parse_args_app (pre rest : list string) (o : options) (i : nat) :
  snd (parse_args o i pre) = i + List.length pre ->
  parse_args o i (pre ++ rest)
  = parse_args (fst (parse_args o i pre)) (i + List.length pre) rest.
Proof.
  revert o i. induction pre as [|a|a v tl IH1 IH2] using list_pair_ind;
    intros o i H.
  - simpl. now rewrite Nat.add_0_r.
  - destruct (parse_args_step o i a [])
      as [E|[(v & tl' & o' & T & _)|(o' & E & [[A O]|[A O]])]].
    + rewrite E in H. simpl in H. lia.
    + discriminate T.
    + subst a o'. reflexivity.
    + subst a o'. reflexivity.
  - assert (L : i + List.length (a :: v :: tl) = i + 2 + List.length tl)
      by (simpl; lia).
    assert (L' : i + List.length (a :: v :: tl) = i + 1 + List.length (v :: tl))
      by (simpl; lia).
    destruct (parse_args_step o i a (v :: tl))
      as [E|[(v' & tl' & o' & T & E & K)|(o' & E & K)]].
    + rewrite E in H. simpl in H. lia.
    + inversion T. subst v' tl'. rewrite E in *. rewrite L in *.
      rewrite <- (IH1 o' (i + 2) H).
      destruct K as [[A O]|[[A O]|[[A O]|[A (pos & F & O)]]]]; subst a o';
        try reflexivity.
      simpl. rewrite F. reflexivity.
    + rewrite E in *. rewrite L' in *.
      rewrite <- (IH2 o' (i + 1) H).
      destruct K as [[A O]|[A O]]; subst a o'; reflexivity.
Qed.

Lemma parse_args_app_witness :
  snd (parse_args default_options 1 ["-retime"; "-part"; "SLG46140V"]) = 1 + 3
  /\ parse_args default_options 1
       (["-retime"; "-part"; "SLG46140V"] ++ ["-noflatten"; "design.v"])
     = parse_args
         (fst (parse_args default_options 1
                 ["-retime"; "-part"; "SLG46140V"]))
         (1 + 3) ["-noflatten"; "design.v"].
Proof.
  split; [reflexivity|].
  exact (parse_args_app ["-retime"; "-part"; "SLG46140V"]
           ["-noflatten"; "design.v"] default_options 1 eq_refl).
Defined.

(** X3.  The loop never switches flattening back on and never switches
    retiming back off. *)
Theorem parse_args_flags_one_way (o : options) (i : nat) (rest : list string) :
  (flatten o = false -> flatten (fst (parse_args o i rest)) = false) /\
  (retime o = true -> retime (fst (parse_args o i rest)) = true).
Proof.
  revert o i. induction rest as [|a|a v tl IH1 IH2] using list_pair_ind;
    intros o i.
  - simpl. auto.
  - destruct (parse_args_step o i a [])
      as [E|[(v & tl' & o' & T & _)|(o' & E & [[A O]|[A O]])]].
    + rewrite E. simpl. auto.
    + discriminate T.
    + rewrite E. subst o'. simpl. auto.
    + rewrite E. subst o'. simpl. auto.
  - destruct (parse_args_step o i a (v :: tl))
      as [E|[(v' & tl' & o' & T & E & K)|(o' & E & K)]].
    + rewrite E. simpl. auto.
    + inversion T. subst v' tl'. rewrite E.
      destruct (IH1 o' (i + 2)) as [G1 G2].
      destruct K as [[A O]|[[A O]|[[A O]|[A (pos & F & O)]]]]; subst o';
        simpl in G1, G2; auto.
    + rewrite E. destruct (IH2 o' (i + 1)) as [G1 G2].
      destruct K as [[A O]|[A O]]; subst o'; simpl in G1, G2; auto.
Qed.

(** X4.  A setting keeps its initial value unless its option word occurs
    on the command line. *)
Theorem parse_args_untouched (o : options) (i : nat) (rest : list string) :
  (~ In "-top" rest -> top_opt (fst (parse_args o i rest)) = top_opt o) /\
  (~ In "-json" rest -> json_file (fst (parse_args o i rest)) = json_file o) /\
  (~ In "-part" rest -> part (fst (parse_args o i rest)) = part o) /\
  (~ In "-run" rest ->
   run_from (fst (parse_args o i rest)) = run_from o /\
   run_to (fst (parse_args o i rest)) = run_to o) /\
  (~ In "-noflatten" rest ->
   flatten (fst (parse_args o i rest)) = flatten o) /\
  (~ In "-retime" rest -> retime (fst (parse_args o i rest)) = retime o).
Proof.
  revert o i. induction rest as [|a|a v tl IH1 IH2] using list_pair_ind;
    intros o i.
  - simpl. (split; [|split; [|split; [|split; [|split]]]]); intros H; auto.
  - destruct (parse_args_step o i a [])
      as [E|[(v & tl' & o' & T & _)|(o' & E & [[A O]|[A O]])]].
    + rewrite E. simpl. (split; [|split; [|split; [|split; [|split]]]]); intros H; auto.
    + discriminate T.
    + rewrite E. subst a o'. simpl.
      (split; [|split; [|split; [|split; [|split]]]]); intros H; auto;
        exfalso; apply H; now left.
    + rewrite E. subst a o'. simpl.
      (split; [|split; [|split; [|split; [|split]]]]); intros H; auto;
        exfalso; apply H; now left.
  - destruct (parse_args_step o i a (v :: tl))
      as [E|[(v' & tl' & o' & T & E & K)|(o' & E & K)]].
    + rewrite E. simpl. (split; [|split; [|split; [|split; [|split]]]]); intros H; auto.
    + inversion T. subst v' tl'. rewrite E.
      destruct (IH1 o' (i + 2)) as (G1 & G2 & G3 & G4 & G5 & G6).
      assert (S : forall w, ~ In w (a :: v :: tl) -> ~ In w tl /\ a <> w).
      { intros w H. split.
        - intros X. apply H. right. now right.
        - intros X. apply H. now left. }
      destruct K as [[A O]|[[A O]|[[A O]|[A (pos & F & O)]]]]; subst a o';
        simpl in G1, G2, G3, G4, G5, G6;
        (split; [|split; [|split; [|split; [|split]]]]); intros H; apply S in H;
        destruct H as [H N]; try congruence; auto.
    + rewrite E. destruct (IH2 o' (i + 1)) as (G1 & G2 & G3 & G4 & G5 & G6).
      assert (S : forall w, ~ In w (a :: v :: tl) ->
                            ~ In w (v :: tl) /\ a <> w).
      { intros w H. split.
        - intros X. apply H. now right.
        - intros X. apply H. now left. }
      destruct K as [[A O]|[A O]]; subst a o';
        simpl in G1, G2, G3, G4, G5, G6;
        (split; [|split; [|split; [|split; [|split]]]]); intros H; apply S in H;
        destruct H as [H N]; try congruence; auto.
Qed.

Lemma parse_args_flags_one_way_witness :
  flatten (with_flatten default_options false) = false /\
  retime (with_retime default_options true) = true /\
  flatten (fst (parse_args (with_flatten default_options false) 1
                  ["-top"; "cpu"; "-retime"])) = false /\
  retime (fst (parse_args (with_retime default_options true) 1
                 ["-noflatten"; "-json"; "out.json"])) = true.
Proof.
  split; [reflexivity|]. split; [reflexivity|]. split.
  - exact (proj1 (parse_args_flags_one_way
                    (with_flatten default_options false) 1
                    ["-top"; "cpu"; "-retime"]) eq_refl).
  - exact (proj2 (parse_args_flags_one_way
                    (with_retime default_options true) 1
                    ["-noflatten"; "-json"; "out.json"]) eq_refl).
Defined.

Lemma parse_args_untouched_witness :
  ~ In "-part" ["-top"; "cpu"; "-run"; "fine:check"; "-retime"] /\
  part (fst (parse_args default_options 1
               ["-top"; "cpu"; "-run"; "fine:check"; "-retime"]))
  = "SLG46621V".
Proof.
  assert (H : ~ In "-part" ["-top"; "cpu"; "-run"; "fine:check"; "-retime"]).
  { simpl. intros X.
    repeat (destruct X as [X|X]; [discriminate X|]). destruct X. }
  split; [exact H|].
  exact (proj1 (proj2 (proj2 (parse_args_untouched default_options 1
           ["-top"; "cpu"; "-run"; "fine:check"; "-retime"]))) H).
Defined.

(** ** Splitting the run range at the colon (lines 145-149) *)

(** A string without a NUL byte is formatted whole. *)
Lemma c_str_nul_free (s : string) :
  ~ In Ascii.zero (list_ascii_of_string s) -> c_str s = s.
Proof.
  induction s as [|c s IH]; simpl; intros H; [reflexivity|].
  destruct (Ascii.eqb c Ascii.zero) eqn:E.
  - apply Ascii.eqb_eq in E. exfalso. apply H. left. now symmetry.
  - rewrite IH; [reflexivity|]. intros X. apply H. now right.
Qed.

Lemma substring_0_0 (s : string) : substring 0 0 s = EmptyString.
Proof. destruct s; reflexivity. Qed.

Lemma substring_whole (s : string) : substring 0 (String.length s) s = s.
Proof.
  induction s as [|c s IH]; simpl; [reflexivity|now rewrite IH].
Qed.

Lemma substring_front (f s : string) :
  substring 0 (String.length f) (f ++ s)%string = f.
Proof.
  induction f as [|c f IH]; simpl.
  - apply substring_0_0.
  - now rewrite IH.
Qed.

Lemma substr_from_after (f t : string) :
  substr_from (String.length f + 1) (f ++ String ":" t)%string = t.
Proof.
  unfold substr_from. induction f as [|c f IH]; simpl.
  - rewrite Nat.sub_0_r. apply substring_whole.
  - exact IH.
Qed.

Lemma find_colon_append (f t : string) :
  find_colon f = None ->
  find_colon (f ++ String ":" t)%string = Some (String.length f).
Proof.
  induction f as [|c f IH]; simpl; intros H.
  - reflexivity.
  - destruct (Ascii.eqb c ":"); [discriminate|].
    destruct (find_colon f); [discriminate|].
    now rewrite IH.
Qed.

(** X5.  [-run from:to] sets run_from to [from] and run_to to [to] when
    [from] holds no colon: the value is split at its first colon, so
    run_to may hold further colons. *)
Theorem parse_args_run_range (o : options) (i : nat) (from to : string)
  (rest : list string) :
  find_colon from = None ->
  parse_args o i ("-run" :: (from ++ String ":" to)%string :: rest)
  = parse_args (with_run_range o from to) (i + 2) rest.
Proof.
  intros H. cbn [parse_args]. simpl String.eqb.
  rewrite (find_colon_append from to H).
  now rewrite substring_front, substr_from_after.
Qed.

Lemma parse_args_run_range_witness :
  find_colon "map_luts" = None /\
  parse_args default_options 1 ["-run"; "map_luts:check"; "-retime"]
  = parse_args (with_run_range default_options "map_luts" "check") 3
      ["-retime"].
Proof.
  split; [reflexivity|].
  exact (parse_args_run_range default_options 1 "map_luts" "check"
           ["-retime"] eq_refl).
Defined.

(** X6.  Splitting at the colon loses nothing: the part before the first
    colon holds no colon, and the two parts put together around a colon
    give the value back. *)
Theorem run_range_split_lossless (v : string) (pos : nat) :
  find_colon v = Some pos ->
  find_colon (substring 0 pos v) = None /\
  (substring 0 pos v ++ String ":" (substr_from (pos + 1) v))%string = v.
Proof.
  revert pos. induction v as [|c v IH]; intros pos; simpl.
  - discriminate.
  - destruct (Ascii.eqb c ":") eqn:E.
    + intros H. inversion H. subst pos. apply Ascii.eqb_eq in E. subst c.
      split; [reflexivity|]. simpl. unfold substr_from. simpl.
      rewrite Nat.sub_0_r. now rewrite substring_whole.
    + destruct (find_colon v) as [n|]; [|discriminate].
      intros H. inversion H. subst pos.
      destruct (IH n eq_refl) as [G1 G2]. simpl. rewrite E, G1.
      split; [reflexivity|]. f_equal. exact G2.
Qed.

Lemma run_range_split_lossless_witness :
  find_colon "fine:map_cells" = Some 4 /\
  find_colon (substring 0 4 "fine:map_cells") = None /\
  (substring 0 4 "fine:map_cells"
   ++ String ":" (substr_from (4 + 1) "fine:map_cells"))%string
  = "fine:map_cells".
Proof.
  split; [reflexivity|].
  exact (run_range_split_lossless "fine:map_cells" 4 eq_refl).
Defined.

(** * The run range at the level of whole runs *)

Section Window.

Variable Design : Type.
Variable full_selection : Design -> bool.
Variable call : Design -> string -> bool * Design.

(** X7.  [stages o] is the list of the stages whose label the code
    checks: all eight, or the seven others when the flatten flag is off,
    in which case "flatten" is not a label of the list.  When run_from and
    run_to are labels of that list, run_from before run_to, a valid run
    with a dispatcher that never fails checks and skips the stages of the
    list before run_from, runs the stages of the list from run_from up to
    but not including run_to in order, and checks and skips run_to and the
    stages of the list after it. *)
Theorem run_range_from_to (o : options) (d : Design) (b b' : list string)
  (s1 s2 s3 : list (string * list string)) :
  (forall d c, fst (call d c) = true) ->
  full_selection d = true ->
  invalid_part (part o) = false ->
  stages o = s1 ++ (run_from o, b) :: s2 ++ (run_to o, b') :: s3 ->
  let r := run_config full_selection call o (start d) in
  fst r = Done tt /\
  trace (snd r)
  = all_closed s1 ++ all_open ((run_from o, b) :: s2)
    ++ all_closed ((run_to o, b') :: s3) /\
  calls_of (trace (snd r)) = b ++ bodies s2.
Proof.
  intros Hok Hs Hp Hst r.
  destruct (run_total Design full_selection call o d Hok Hs Hp) as [Hr Ht].
  subst r. rewrite Hr, Ht. clear Hr Ht. split; [reflexivity|].
  assert (E : empty (run_from o) = false).
  { apply (stages_label_nonempty o). rewrite Hst, map_app.
    apply in_or_app. right. now left. }
  assert (ND := stages_nodup o). rewrite Hst in ND.
  assert (P : plan o
              = all_closed s1 ++ all_open ((run_from o, b) :: s2)
                ++ all_closed ((run_to o, b') :: s3)).
  { unfold plan. rewrite E, Hst. now apply walk_from_to. }
  rewrite P. split; [reflexivity|]. apply calls_of_block.
Qed.

(** X8.  With an empty run_from and run_to a label of the list of checked
    stages [stages o] (so not "flatten" when the flatten flag is off), a
    valid run with a dispatcher that never fails runs the stages of the
    list before run_to in order, and checks and skips run_to and the stages
    of the list after it. *)
Theorem run_range_until (o : options) (d : Design) (b' : list string)
  (s1 s3 : list (string * list string)) :
  (forall d c, fst (call d c) = true) ->
  full_selection d = true ->
  invalid_part (part o) = false ->
  run_from o = "" ->
  stages o = s1 ++ (run_to o, b') :: s3 ->
  let r := run_config full_selection call o (start d) in
  fst r = Done tt /\
  trace (snd r) = all_open s1 ++ all_closed ((run_to o, b') :: s3) /\
  calls_of (trace (snd r)) = bodies s1.
Proof.
  intros Hok Hs Hp Hf Hst r.
  destruct (run_total Design full_selection call o d Hok Hs Hp) as [Hr Ht].
  subst r. rewrite Hr, Ht. clear Hr Ht. split; [reflexivity|].
  assert (ND := stages_nodup o). assert (NE := empty_not_label o).
  rewrite Hst in ND, NE.
  assert (P : plan o = all_open s1 ++ all_closed ((run_to o, b') :: s3)).
  { unfold plan. rewrite Hf, Hst. simpl empty. now apply walk_until. }
  rewrite P. split; [reflexivity|].
  rewrite calls_of_app, calls_of_all_open, calls_of_all_closed.
  apply app_nil_r.
Qed.

(** X9.  When run_from is a label of the list of checked stages
    [stages o] (so not "flatten" when the flatten flag is off) and run_to
    differs from it and is no label of the list after it (run_to is empty,
    or no label of the list, or the label of an earlier entry), a valid run
    with a dispatcher that never fails checks and skips the stages of the
    list before run_from and runs run_from and every later stage of the
    list in order, to the end of the script. *)
Theorem run_range_from (o : options) (d : Design) (b : list string)
  (s1 s2 : list (string * list string)) :
  (forall d c, fst (call d c) = true) ->
  full_selection d = true ->
  invalid_part (part o) = false ->
  stages o = s1 ++ (run_from o, b) :: s2 ->
  run_from o <> run_to o ->
  ~ In (run_to o) (map fst s2) ->
  let r := run_config full_selection call o (start d) in
  fst r = Done tt /\
  trace (snd r) = all_closed s1 ++ all_open ((run_from o, b) :: s2) /\
  calls_of (trace (snd r)) = b ++ bodies s2.
Proof.
  intros Hok Hs Hp Hst N T r.
  destruct (run_total Design full_selection call o d Hok Hs Hp) as [Hr Ht].
  subst r. rewrite Hr, Ht. clear Hr Ht. split; [reflexivity|].
  assert (E : empty (run_from o) = false).
  { apply (stages_label_nonempty o). rewrite Hst, map_app.
    apply in_or_app. right. now left. }
  assert (ND := stages_nodup o). rewrite Hst in ND.
  assert (P : plan o = all_closed s1 ++ all_open ((run_from o, b) :: s2)).
  { unfold plan. rewrite E, Hst. now apply walk_from. }
  rewrite P. split; [reflexivity|].
  rewrite calls_of_app, calls_of_all_closed, calls_of_all_open. reflexivity.
Qed.

(** X10.  Whatever the run range is, the stages that run in a valid run
    with a dispatcher that never fails are one unbroken block of the list
    of stages: the window never opens twice. *)
Theorem run_range_one_block (o : options) (d : Design) :
  (forall d c, fst (call d c) = true) ->
  full_selection d = true ->
  invalid_part (part o) = false ->
  let r := run_config full_selection call o (start d) in
  exists s1 s2 s3,
    stages o = s1 ++ s2 ++ s3 /\
    trace (snd r) = all_closed s1 ++ all_open s2 ++ all_closed s3 /\
    calls_of (trace (snd r)) = bodies s2.
Proof.
  intros Hok Hs Hp r.
  destruct (run_total Design full_selection call o d Hok Hs Hp) as [_ Ht].
  subst r. rewrite Ht. clear Ht. unfold plan.
  destruct (empty (run_from o)) eqn:E.
  - apply empty_true in E. rewrite E.
    destruct (walk_open_block "" (run_to o) (stages o) (empty_not_label o))
      as (s2 & s3 & Hst & W & _).
    exists [], s2, s3. split; [exact Hst|]. rewrite W.
    split; [reflexivity|]. apply (calls_of_block [] s2 s3).
  - destruct (walk_closed_block (run_from o) (run_to o) (stages o)
                (stages_nodup o)) as (s1 & s2 & s3 & Hst & W).
    exists s1, s2, s3. split; [exact Hst|]. rewrite W.
    split; [reflexivity|]. apply calls_of_block.
Qed.

(** X11.  [-run l:l] with the same non-empty word on both sides runs
    nothing, whatever the word is: every label is checked, every check
    returns false, no command is dispatched and the design stays as it
    was, with every dispatcher. *)
Theorem run_range_same_label (o : options) (d : Design) :
  full_selection d = true ->
  invalid_part (part o) = false ->
  run_from o = run_to o ->
  run_from o <> "" ->
  let r := run_config full_selection call o (start d) in
  fst r = Done tt /\
  trace (snd r) = all_closed (stages o) /\
  calls_of (trace (snd r)) = [] /\
  design (snd r) = d.
Proof.
  intros Hs Hp E N r.
  assert (P : plan o = all_closed (stages o)).
  { unfold plan. rewrite <- E.
    assert (X : empty (run_from o) = false)
      by (destruct (run_from o); [congruence|reflexivity]).
    rewrite X. apply walk_same_label. }
  assert (Q : calls_of (plan o) = [])
    by (rewrite P; apply calls_of_all_closed).
  destruct (run_quiet Design full_selection call o d Hs Hp Q)
    as (Hr & Hd & Ht).
  subst r. rewrite Hr, Hd, Ht, <- P, Q. repeat split.
Qed.

(** X12.  An empty run_from is the same as "begin", as the help text says:
    the two runs agree in outcome, trace and final state, for every
    design, every dispatcher and every other option. *)
Theorem empty_from_is_begin (o : options) (d : Design) :
  run_config full_selection call (with_run_from o "") (start d)
  = run_config full_selection call (with_run_from o "begin") (start d).
Proof.
  destruct (full_selection d) eqn:Hs.
  - destruct (invalid_part (part o)) eqn:Hp.
    + rewrite !run_config_invalid by assumption. reflexivity.
    + rewrite !run_config_valid by assumption.
      unfold plan.
      change (stages (with_run_from o "")) with (stages o).
      change (stages (with_run_from o "begin")) with (stages o).
      change (run_to (with_run_from o "")) with (run_to o).
      change (run_to (with_run_from o "begin")) with (run_to o).
      change (run_from (with_run_from o "")) with "".
      change (run_from (with_run_from o "begin")) with "begin".
      assert (ND := stages_nodup o). assert (NE := empty_not_label o).
      unfold stages, stages_before_fine in *.
      simpl app in ND, NE |- *. simpl map in ND, NE.
      inversion ND as [|x xs NB ND']. subst x xs.
      rewrite !walk_cons.
      assert (C : check_label (empty "") "" (run_to o) "begin"
                  = check_label (empty "begin") "begin" (run_to o) "begin").
      { unfold check_label. simpl. destruct ("begin" =? run_to o); reflexivity. }
      rewrite C.
      rewrite (walk_run_from_irrelevant "" "begin");
        [reflexivity| |exact NB].
      intros X. apply NE. now right.
  - rewrite !run_config_unselected by assumption. reflexivity.
Qed.

End Window.

(** * Failing commands and the design *)

Lemma dispatch_all_app {Design : Type}
  (call : Design -> string -> bool * Design) (c1 c2 : list string)
  (d : Design) :
  dispatch_all call (c1 ++ c2) d = dispatch_all call c2 (dispatch_all call c1 d).
Proof. unfold dispatch_all. apply fold_left_app. Qed.

Section Dispatch.

Variable Design : Type.
Variable full_selection : Design -> bool.
Variable call : Design -> string -> bool * Design.

(** What a replay leaves behind: a trace that ends with the command that
    failed, if one did, and the design the dispatcher made of the commands
    in that trace. *)
Lemma replay_outcome (evs : list event) (s : state Design) :
  (fst (replay call evs s) = Done tt /\
   trace (snd (replay call evs s)) = trace s ++ evs /\
   design (snd (replay call evs s))
   = dispatch_all call (calls_of evs) (design s))
  \/ (exists pre c post,
        evs = pre ++ EvCall c :: post /\
        fst (replay call evs s) = Abort (CallError c) /\
        trace (snd (replay call evs s)) = trace s ++ pre ++ [EvCall c] /\
        fst (call (dispatch_all call (calls_of pre) (design s)) c) = false /\
        design (snd (replay call evs s))
        = dispatch_all call (calls_of (pre ++ [EvCall c])) (design s)).
Proof.
  revert s. induction evs as [|[l a|c] evs IH]; intros s.
  - left. simpl. now rewrite app_nil_r.
  - simpl replay. unfold bind, set_label.
    destruct (IH {| active := a; design := design s;
                    trace := trace s ++ [EvLabel l a] |})
      as [(H1 & H2 & H3)|(pre & c & post & E & H1 & H2 & H3 & H4)].
    + left. split; [exact H1|]. split; [|exact H3].
      rewrite H2. simpl. now rewrite <- app_assoc.
    + right. exists (EvLabel l a :: pre), c, post.
      split; [simpl; now rewrite E|]. split; [exact H1|].
      split; [|split; [exact H3|exact H4]].
      rewrite H2. simpl. now rewrite <- app_assoc.
  - simpl replay. unfold bind, Pass_call.
    destruct (call (design s) c) as [ok d'] eqn:C. destruct ok.
    + destruct (IH {| active := active s; design := d';
                      trace := trace s ++ [EvCall c] |})
        as [(H1 & H2 & H3)|(pre & c' & post & E & H1 & H2 & H3 & H4)].
      * left. split; [exact H1|]. split.
        -- rewrite H2. simpl. now rewrite <- app_assoc.
        -- rewrite H3. simpl. unfold dispatch_all. simpl. now rewrite C.
      * right. exists (EvCall c :: pre), c', post.
        split; [simpl; now rewrite E|]. split; [exact H1|]. split.
        -- rewrite H2. simpl. now rewrite <- app_assoc.
        -- simpl in H3, H4 |- *. unfold dispatch_all in *. simpl.
           rewrite C. simpl. split; [exact H3|exact H4].
    + right. exists [], c, evs. simpl. unfold dispatch_all. simpl.
      rewrite C. repeat split.
Qed.

(** X13.  The pass changes the design through the commands it dispatches
    and through nothing else: the design a run leaves is the one the
    dispatcher makes of the dispatched commands, in order, whatever the
    options are and whether or not a command fails. *)
Theorem design_only_through_calls (o : options) (d : Design) :
  let r := run_config full_selection call o (start d) in
  design (snd r) = dispatch_all call (calls_of (trace (snd r))) d.
Proof.
  intros r. subst r.
  destruct (full_selection d) eqn:Hs.
  - destruct (invalid_part (part o)) eqn:Hp.
    + rewrite run_config_invalid by assumption. reflexivity.
    + rewrite run_config_valid by assumption.
      destruct (replay_outcome (plan o)
                  {| active := empty (run_from o); design := d; trace := [] |})
        as [(_ & H2 & H3)|(pre & c & post & _ & _ & H2 & _ & H4)].
      * rewrite H2, H3. reflexivity.
      * rewrite H2, H4. reflexivity.
  - rewrite run_config_unselected by assumption. reflexivity.
Qed.

(** A trace the dispatcher accepts is replayed whole. *)
Lemma replay_accepted (evs : list event) (s : state Design) :
  accepts_all call (design s) evs = true ->
  fst (replay call evs s) = Done tt /\
  trace (snd (replay call evs s)) = trace s ++ evs.
Proof.
  revert s. induction evs as [|[l a|c] evs IH]; intros s H.
  - simpl. now rewrite app_nil_r.
  - simpl replay. unfold bind, set_label.
    destruct (IH {| active := a; design := design s;
                    trace := trace s ++ [EvLabel l a] |} H) as [H1 H2].
    split; [exact H1|]. rewrite H2. simpl. now rewrite <- app_assoc.
  - simpl in H. simpl replay. unfold bind, Pass_call.
    destruct (call (design s) c) as [ok d']. simpl in H.
    apply andb_prop in H. destruct H as [O H]. subst ok.
    destruct (IH {| active := active s; design := d';
                    trace := trace s ++ [EvCall c] |} H) as [H1 H2].
    split; [exact H1|]. rewrite H2. simpl. now rewrite <- app_assoc.
Qed.

(** A replay stops at a command the dispatcher rejects after it accepted
    everything before. *)
Lemma replay_rejected (pre post : list event) (c : string)
  (s : state Design) :
  accepts_all call (design s) pre = true ->
  fst (call (dispatch_all call (calls_of pre) (design s)) c) = false ->
  fst (replay call (pre ++ EvCall c :: post) s) = Abort (CallError c) /\
  trace (snd (replay call (pre ++ EvCall c :: post) s))
  = trace s ++ pre ++ [EvCall c].
Proof.
  revert s. induction pre as [|[l a|c0] pre IH]; intros s H R.
  - simpl in R |- *. unfold bind, Pass_call.
    destruct (call (design s) c) as [ok d']. simpl in R. subst ok.
    split; reflexivity.
  - simpl app. simpl replay. unfold bind, set_label.
    destruct (IH {| active := a; design := design s;
                    trace := trace s ++ [EvLabel l a] |} H R) as [H1 H2].
    split; [exact H1|]. rewrite H2. simpl. now rewrite <- app_assoc.
  - simpl in H. simpl app. simpl replay. unfold bind, Pass_call.
    unfold dispatch_all in R. simpl in R.
    destruct (call (design s) c0) as [ok d']. simpl in H, R.
    apply andb_prop in H. destruct H as [O H]. subst ok.
    destruct (IH {| active := active s; design := d';
                    trace := trace s ++ [EvCall c0] |} H R) as [H1 H2].
    split; [exact H1|]. rewrite H2. simpl. now rewrite <- app_assoc.
Qed.

(** A trace is accepted whole, or it has a first command that is
    rejected. *)
Lemma first_rejected (evs : list event) (d : Design) :
  accepts_all call d evs = true
  \/ exists pre c post,
       evs = pre ++ EvCall c :: post /\
       accepts_all call d pre = true /\
       fst (call (dispatch_all call (calls_of pre) d) c) = false.
Proof.
  revert d. induction evs as [|[l a|c] evs IH]; intros d.
  - now left.
  - destruct (IH d) as [H|(pre & c & post & E & A & R)].
    + now left.
    + right. exists (EvLabel l a :: pre), c, post.
      split; [simpl; now rewrite E|]. split; [exact A|exact R].
  - simpl. destruct (fst (call d c)) eqn:O.
    + destruct (IH (snd (call d c))) as [H|(pre & c' & post & E & A & R)].
      * now left.
      * right. exists (EvCall c :: pre), c', post.
        split; [simpl; now rewrite E|]. split.
        -- simpl. now rewrite O.
        -- exact R.
    + right. exists [], c, evs. split; [reflexivity|].
      split; [reflexivity|exact O].
Qed.

(** X14.  A valid run stops at the first command the dispatcher rejects.
    If the dispatcher accepts every command of the script for the options,
    the run dispatches the whole script and ends normally.  If it accepts
    the commands before some command and rejects that one, the run ends
    with that command as the reported failure and as the last entry of the
    trace: no later label is checked and no later command tried.  One of
    the two is always the case. *)
Theorem run_stops_at_failure (o : options) (d : Design) :
  full_selection d = true ->
  invalid_part (part o) = false ->
  let r := run_config full_selection call o (start d) in
  (accepts_all call d (plan o) = true ->
   fst r = Done tt /\ trace (snd r) = plan o) /\
  (forall pre c post,
     plan o = pre ++ EvCall c :: post ->
     accepts_all call d pre = true ->
     fst (call (dispatch_all call (calls_of pre) d) c) = false ->
     fst r = Abort (CallError c) /\ trace (snd r) = pre ++ [EvCall c]) /\
  (accepts_all call d (plan o) = true
   \/ exists pre c post,
        plan o = pre ++ EvCall c :: post /\
        accepts_all call d pre = true /\
        fst (call (dispatch_all call (calls_of pre) d) c) = false).
Proof.
  intros Hs Hp r. subst r. rewrite run_config_valid by assumption.
  split; [|split].
  - intros A.
    exact (replay_accepted (plan o)
             {| active := empty (run_from o); design := d; trace := [] |} A).
  - intros pre c post E A R. rewrite E.
    exact (replay_rejected pre post c
             {| active := empty (run_from o); design := d; trace := [] |} A R).
  - apply first_rejected.
Qed.

End Dispatch.

Lemma run_stops_at_failure_witness :
  let pre := [EvLabel "begin" true;
              EvCall "read_verilog -lib +/greenpak4/cells_sim.v";
              EvCall "hierarchy -check -auto-top";
              EvLabel "flatten" true;
              EvCall "proc";
              EvCall "flatten";
              EvCall "tribuf -logic";
              EvLabel "coarse" true;
              EvCall "synth -run coarse";
              EvLabel "fine" true;
              EvCall "greenpak4_counters";
              EvCall "clean";
              EvCall "opt -fast -mux_undef -undriven -fine";
              EvCall "memory_map";
              EvCall "opt -undriven -fine"] in
  selected [] = true /\
  invalid_part (part default_options) = false /\
  accepts_all recorder [] (plan default_options) = true /\
  accepts_all (fails_on "techmap") [] pre = true /\
  fst (fails_on "techmap"
         (dispatch_all (fails_on "techmap") (calls_of pre) []) "techmap")
  = false /\
  (fst (run_config selected recorder default_options (start [])) = Done tt /\
   trace (snd (run_config selected recorder default_options (start [])))
   = plan default_options) /\
  (fst (run_config selected (fails_on "techmap") default_options (start []))
   = Abort (CallError "techmap") /\
   trace (snd (run_config selected (fails_on "techmap") default_options
                 (start [])))
   = pre ++ [EvCall "techmap"]).
Proof.
  intros pre. do 5 (split; [reflexivity|]). split.
  - exact (proj1 (run_stops_at_failure (list string) selected recorder
                    default_options [] eq_refl eq_refl) eq_refl).
  - exact (proj1 (proj2 (run_stops_at_failure (list string) selected
                           (fails_on "techmap") default_options []
                           eq_refl eq_refl))
             pre "techmap"
             (skipn 16 (plan default_options)) eq_refl eq_refl eq_refl).
Defined.

(** * The JSON file and the LUT budget *)

Ltac check_body_prefix H :=
  simpl in H;
  repeat match type of H with
         | _ \/ _ => destruct H as [H|H]
         | False => destruct H
         end;
  subst; reflexivity.

(** Without a JSON file no body holds a [write_json] command. *)
Lemma write_json_needs_file (o : options) (l c : string)
  (body : list string) :
  json_file o = "" ->
  In (l, body) (stages o) ->
  In c body ->
  prefix "write_json" c = false.
Proof.
  intros J Hin Hb.
  unfold stages, stages_before_fine, stages_after_fine in Hin.
  unfold begin_body, flatten_body, coarse_body, fine_body, map_luts_body,
    map_cells_body, check_body, json_body in Hin.
  rewrite J in Hin.
  destruct (flatten o), (retime o), (part o =? "SLG46140V"),
    (part o =? "SLG46620V"), (part o =? "SLG46621V");
    simpl in Hin;
    repeat match type of Hin with
           | _ \/ _ => destruct Hin as [Hin|Hin]
           | False => destruct Hin
           end;
    inversion Hin; subst l body; clear Hin; check_body_prefix Hb.
Qed.

(** Outside [map_luts] no body holds an [nlutmap] command. *)
Lemma nlutmap_elsewhere (o : options) (l c : string) (body : list string) :
  In (l, body)
     (stages_before_fine o
      ++ [("fine", fine_body o); ("map_cells", map_cells_body);
          ("check", check_body); ("json", json_body o)]) ->
  In c body ->
  prefix "nlutmap" c = false.
Proof.
  intros Hin Hb.
  unfold stages_before_fine in Hin.
  unfold begin_body, flatten_body, coarse_body, fine_body, map_cells_body,
    check_body, json_body in Hin.
  destruct (flatten o), (retime o), (empty (json_file o));
    simpl in Hin;
    repeat match type of Hin with
           | _ \/ _ => destruct Hin as [Hin|Hin]
           | False => destruct Hin
           end;
    inversion Hin; subst l body; clear Hin; check_body_prefix Hb.
Qed.

Lemma valid_part_cases (p : string) :
  invalid_part p = false ->
  p = "SLG46140V" \/ p = "SLG46620V" \/ p = "SLG46621V".
Proof.
  unfold invalid_part.
  destruct (p =? "SLG46140V") eqn:E1; [apply String.eqb_eq in E1; auto|].
  destruct (p =? "SLG46620V") eqn:E2; [apply String.eqb_eq in E2; auto|].
  destruct (p =? "SLG46621V") eqn:E3; [apply String.eqb_eq in E3; auto|].
  discriminate.
Qed.

(** For a valid part the three tests of the [map_luts] stage pick exactly
    one mapper call. *)
Lemma map_luts_body_valid (o : options) :
  invalid_part (part o) = false ->
  map_luts_body o
  = [if part o =? "SLG46140V" then "nlutmap -luts 0,6,8,2"
     else "nlutmap -luts 2,8,16,2";
     "clean"].
Proof.
  intros H. unfold map_luts_body.
  destruct (valid_part_cases _ H) as [E|[E|E]]; rewrite E; reflexivity.
Qed.

Lemma stages_json_last (o : options) :
  stages o
  = (stages_before_fine o
     ++ [("fine", fine_body o); ("map_luts", map_luts_body o);
         ("map_cells", map_cells_body); ("check", check_body)])
    ++ [("json", json_body o)].
Proof.
  unfold stages, stages_after_fine. rewrite <- app_assoc. reflexivity.
Qed.

Lemma stages_map_luts_split (o : options) :
  stages o
  = (stages_before_fine o ++ [("fine", fine_body o)])
    ++ ("map_luts", map_luts_body o)
       :: [("map_cells", map_cells_body); ("check", check_body);
           ("json", json_body o)].
Proof.
  unfold stages, stages_after_fine. rewrite <- app_assoc. reflexivity.
Qed.

Section Outputs.

Variable Design : Type.
Variable full_selection : Design -> bool.
Variable call : Design -> string -> bool * Design.

(** X15.  Without [-json] (an empty file name) no [write_json] command is
    ever dispatched, for every run range, every other option and every
    dispatcher. *)
Theorem no_json_file_no_write (o : options) (d : Design) (c : string) :
  json_file o = "" ->
  In c (calls_of (trace (snd (run_config full_selection call o (start d))))) ->
  prefix "write_json" c = false.
Proof.
  intros J H. apply run_calls_in_plan in H.
  apply in_calls_walk in H. destruct H as (l & body & Hin & Hb).
  exact (write_json_needs_file o l c body J Hin Hb).
Qed.

(** X16.  With a non-empty JSON file name, in a valid run with a
    dispatcher that never fails in which the check of the label "json"
    returned true, the run ends with that check, [splitnets] and
    [write_json] followed by the file name as [%s] formats it, that is up
    to its first NUL byte, in this order. *)
Theorem json_file_written_last (o : options) (d : Design) :
  (forall d c, fst (call d c) = true) ->
  full_selection d = true ->
  invalid_part (part o) = false ->
  json_file o <> "" ->
  let r := run_config full_selection call o (start d) in
  In (EvLabel "json" true) (trace (snd r)) ->
  exists pre,
    trace (snd r)
    = pre ++ [EvLabel "json" true; EvCall "splitnets";
              EvCall ("write_json " ++ c_str (json_file o))%string].
Proof.
  intros Hok Hs Hp J r. subst r.
  destruct (run_total Design full_selection call o d Hok Hs Hp) as [_ Ht].
  rewrite Ht. clear Ht. unfold plan.
  rewrite stages_json_last, walk_app.
  set (front := stages_before_fine o
                ++ [("fine", fine_body o); ("map_luts", map_luts_body o);
                    ("map_cells", map_cells_body); ("check", check_body)]).
  set (pre := walk (run_from o) (run_to o) (empty (run_from o)) front).
  set (a := walk_active (run_from o) (run_to o) (empty (run_from o)) front).
  rewrite walk_cons.
  set (aj := check_label a (run_from o) (run_to o) "json").
  intros H.
  assert (A : aj = true).
  { apply in_app_or in H. destruct H as [H|H].
    - apply in_label_walk in H. subst front. rewrite map_app in H.
      apply in_app_or in H. destruct H as [H|H].
      + apply before_fine_labels in H. destruct H as [H|[H|H]]; discriminate.
      + simpl in H. repeat (destruct H as [H|H]; [discriminate H|]).
        destruct H.
    - rewrite app_nil_r in H. unfold stage_events in H.
      destruct H as [H|H]; [now inversion H|].
      destruct aj; [reflexivity|destruct H]. }
  rewrite A. exists pre. unfold json_body.
  assert (E : empty (json_file o) = false)
    by (destruct (json_file o); [congruence|reflexivity]).
  rewrite E. reflexivity.
Qed.

(** X17.  For a valid part, in a run with a dispatcher that never fails in
    which the check of the label "map_luts" returned true, the LUT mapper
    is called exactly once, with the budget 0,6,8,2 for SLG46140V and
    2,8,16,2 for the two other parts, followed by [clean] and the check of
    the label "map_cells"; no other command of the run starts with
    [nlutmap]. *)
Theorem lut_budget_by_part (o : options) (d : Design) :
  (forall d c, fst (call d c) = true) ->
  full_selection d = true ->
  invalid_part (part o) = false ->
  let r := run_config full_selection call o (start d) in
  In (EvLabel "map_luts" true) (trace (snd r)) ->
  exists pre b post,
    trace (snd r)
    = pre
      ++ [EvLabel "map_luts" true;
          EvCall (if part o =? "SLG46140V" then "nlutmap -luts 0,6,8,2"
                  else "nlutmap -luts 2,8,16,2");
          EvCall "clean";
          EvLabel "map_cells" b]
      ++ post /\
    (forall c, In c (calls_of pre) -> prefix "nlutmap" c = false) /\
    (forall c, In c (calls_of post) -> prefix "nlutmap" c = false).
Proof.
  intros Hok Hs Hp r. subst r.
  destruct (run_total Design full_selection call o d Hok Hs Hp) as [_ Ht].
  rewrite Ht. clear Ht. unfold plan.
  rewrite stages_map_luts_split, walk_app.
  set (f := run_from o). set (t := run_to o).
  set (front := stages_before_fine o ++ [("fine", fine_body o)]).
  set (pre := walk f t (empty f) front).
  set (a := walk_active f t (empty f) front).
  rewrite walk_cons.
  set (am := check_label a f t "map_luts").
  rewrite walk_cons.
  set (b := check_label am f t "map_cells").
  set (rest := walk f t b [("check", check_body); ("json", json_body o)]).
  intros H.
  assert (A : am = true).
  { apply in_app_or in H. destruct H as [H|H].
    - apply in_label_walk in H. subst front. rewrite map_app in H.
      apply in_app_or in H. destruct H as [H|H].
      + apply before_fine_labels in H. destruct H as [H|[H|H]]; discriminate.
      + simpl in H. destruct H as [H|[]]. discriminate H.
    - apply in_app_or in H. destruct H as [H|H].
      + unfold stage_events in H. destruct H as [H|H]; [now inversion H|].
        destruct am; [reflexivity|destruct H].
      + apply in_app_or in H. destruct H as [H|H].
        * unfold stage_events in H. destruct H as [H|H]; [discriminate|].
          destruct b; [|destruct H].
          apply in_map_iff in H. destruct H as (c & Hc & _). discriminate.
        * apply in_label_walk in H. simpl in H.
          destruct H as [H|[H|[]]]; discriminate. }
  rewrite A, (map_luts_body_valid o Hp).
  exists pre, b, ((if b then map EvCall map_cells_body else []) ++ rest).
  split; [reflexivity|]. split.
  - intros c Hc. apply in_calls_walk in Hc.
    destruct Hc as (l & body & Hin & Hb).
    apply (nlutmap_elsewhere o l c body); [|exact Hb].
    subst front. apply in_app_or in Hin. apply in_or_app.
    destruct Hin as [Hin|Hin]; [now left|right].
    simpl in Hin. destruct Hin as [Hin|[]]. rewrite <- Hin. now left.
  - intros c Hc. rewrite calls_of_app in Hc. apply in_app_or in Hc.
    destruct Hc as [Hc|Hc].
    + apply (nlutmap_elsewhere o "map_cells" c map_cells_body).
      * apply in_or_app. right. simpl. auto.
      * destruct b; [|destruct Hc]. now rewrite calls_of_map_call in Hc.
    + apply in_calls_walk in Hc. destruct Hc as (l & body & Hin & Hb).
      apply (nlutmap_elsewhere o l c body); [|exact Hb].
      apply in_or_app. right. simpl in Hin |- *.
      destruct Hin as [Hin|[Hin|[]]]; auto.
Qed.

End Outputs.

(** * A run range without a colon (lines 144-147, 162) *)

Section CommandLine.

Variable Design : Type.
Variable full_selection : Design -> bool.
Variable call : Design -> string -> bool * Design.
Variable extra_args : list string -> nat -> Design -> bool * Design.

(** X18.  When the words before a [-run] are all read by the option loop
    and the value of that [-run] holds no colon, the loop stops at the
    index of [-run] with the options read so far; the words after it are
    not looked at.  That index goes to [Pass::extra_args], and when that
    call does not come back nothing is checked or dispatched. *)
Theorem execute_run_without_colon (cmd v : string) (pre post : list string)
  (s : state Design) :
  snd (parse_args default_options 1 pre) = 1 + List.length pre ->
  find_colon v = None ->
  let args := cmd :: pre ++ "-run" :: v :: post in
  let o := fst (parse_args default_options 1 pre) in
  parse_args default_options 1 (List.tl args) = (o, 1 + List.length pre) /\
  (fst (extra_args args (1 + List.length pre) (design s)) = false ->
   fst (execute full_selection call extra_args args s)
   = Abort (CmdError "extra_args") /\
   trace (snd (execute full_selection call extra_args args s)) = trace s).
Proof.
  intros Hpre Hv args o.
  assert (P : parse_args default_options 1 (List.tl args)
              = (o, 1 + List.length pre)).
  { subst args o. simpl List.tl. rewrite parse_args_app by exact Hpre.
    cbn [parse_args]. simpl String.eqb. rewrite Hv. reflexivity. }
  split; [exact P|].
  intros R. unfold execute. rewrite P. unfold bind, call_extra_args.
  destruct (extra_args args (1 + List.length pre) (design s)) as [ok d'].
  simpl in R. subst ok. split; reflexivity.
Qed.

End CommandLine.

(** * The further properties on the recording dispatcher *)

Lemma run_range_from_to_witness :
  let o := with_run_range default_options "coarse" "map_cells" in
  (forall d c, fst (recorder d c) = true) /\
  selected [] = true /\
  invalid_part (part o) = false /\
  stages o
  = [("begin", begin_body o); ("flatten", flatten_body)]
    ++ (run_from o, coarse_body)
       :: [("fine", fine_body o); ("map_luts", map_luts_body o)]
       ++ (run_to o, map_cells_body)
          :: [("check", check_body); ("json", json_body o)] /\
  calls_of (trace (snd (run_config selected recorder o (start []))))
  = coarse_body
    ++ bodies [("fine", fine_body o); ("map_luts", map_luts_body o)].
Proof.
  intros o. do 4 (split; [reflexivity|]).
  exact (proj2 (proj2
    (run_range_from_to (list string) selected recorder o [] coarse_body
       map_cells_body [("begin", begin_body o); ("flatten", flatten_body)]
       [("fine", fine_body o); ("map_luts", map_luts_body o)]
       [("check", check_body); ("json", json_body o)]
       (fun _ _ => eq_refl) eq_refl eq_refl eq_refl))).
Defined.

Lemma run_range_until_witness :
  let o := with_run_range default_options "" "fine" in
  (forall d c, fst (recorder d c) = true) /\
  selected [] = true /\
  invalid_part (part o) = false /\
  run_from o = "" /\
  stages o
  = [("begin", begin_body o); ("flatten", flatten_body);
     ("coarse", coarse_body)]
    ++ (run_to o, fine_body o) :: stages_after_fine o /\
  calls_of (trace (snd (run_config selected recorder o (start []))))
  = bodies [("begin", begin_body o); ("flatten", flatten_body);
            ("coarse", coarse_body)].
Proof.
  intros o. do 5 (split; [reflexivity|]).
  exact (proj2 (proj2
    (run_range_until (list string) selected recorder o [] (fine_body o)
       [("begin", begin_body o); ("flatten", flatten_body);
        ("coarse", coarse_body)]
       (stages_after_fine o)
       (fun _ _ => eq_refl) eq_refl eq_refl eq_refl eq_refl))).
Defined.

Lemma run_range_from_witness :
  let o := with_run_range default_options "check" "coarse" in
  (forall d c, fst (recorder d c) = true) /\
  selected [] = true /\
  invalid_part (part o) = false /\
  stages o
  = (stages_before_fine o
     ++ [("fine", fine_body o); ("map_luts", map_luts_body o);
         ("map_cells", map_cells_body)])
    ++ (run_from o, check_body) :: [("json", json_body o)] /\
  run_from o <> run_to o /\
  ~ In (run_to o) (map fst [("json", json_body o)]) /\
  calls_of (trace (snd (run_config selected recorder o (start []))))
  = check_body ++ bodies [("json", json_body o)].
Proof.
  intros o.
  assert (N : run_from o <> run_to o) by discriminate.
  assert (T : ~ In (run_to o) (map fst [("json", json_body o)])).
  { simpl. intros [X|[]]. discriminate X. }
  do 4 (split; [reflexivity|]). split; [exact N|]. split; [exact T|].
  exact (proj2 (proj2
    (run_range_from (list string) selected recorder o [] check_body
       (stages_before_fine o
        ++ [("fine", fine_body o); ("map_luts", map_luts_body o);
            ("map_cells", map_cells_body)])
       [("json", json_body o)]
       (fun _ _ => eq_refl) eq_refl eq_refl eq_refl N T))).
Defined.

Lemma run_range_one_block_witness :
  let o := with_run_range default_options "fine" "nowhere" in
  (forall d c, fst (recorder d c) = true) /\
  selected [] = true /\
  invalid_part (part o) = false /\
  (exists s1 s2 s3,
     stages o = s1 ++ s2 ++ s3 /\
     trace (snd (run_config selected recorder o (start [])))
     = all_closed s1 ++ all_open s2 ++ all_closed s3 /\
     calls_of (trace (snd (run_config selected recorder o (start []))))
     = bodies s2).
Proof.
  intros o. do 3 (split; [reflexivity|]).
  exact (run_range_one_block (list string) selected recorder o []
           (fun _ _ => eq_refl) eq_refl eq_refl).
Defined.

Lemma run_range_same_label_witness :
  let o := with_run_range default_options "map_luts" "map_luts" in
  selected [] = true /\
  invalid_part (part o) = false /\
  run_from o = run_to o /\
  run_from o <> "" /\
  calls_of (trace (snd (run_config selected recorder o (start [])))) = [].
Proof.
  intros o.
  assert (N : run_from o <> "") by discriminate.
  do 3 (split; [reflexivity|]). split; [exact N|].
  exact (proj1 (proj2 (proj2
    (run_range_same_label (list string) selected recorder o []
       eq_refl eq_refl eq_refl N)))).
Defined.

Lemma no_json_file_no_write_witness :
  json_file default_options = "" /\
  In "splitnets"
     (calls_of (trace (snd (run_config selected recorder default_options
                              (start []))))) /\
  prefix "write_json" "splitnets" = false.
Proof.
  assert (H : In "splitnets"
     (calls_of (trace (snd (run_config selected recorder default_options
                              (start [])))))).
  { vm_compute. do 26 right. left. reflexivity. }
  split; [reflexivity|]. split; [exact H|].
  exact (no_json_file_no_write (list string) selected recorder
           default_options [] "splitnets" eq_refl H).
Defined.

Lemma json_file_written_last_witness :
  let o := with_json_file default_options "out.json" in
  (forall d c, fst (recorder d c) = true) /\
  selected [] = true /\
  invalid_part (part o) = false /\
  json_file o <> "" /\
  In (EvLabel "json" true)
     (trace (snd (run_config selected recorder o (start [])))) /\
  (exists pre,
     trace (snd (run_config selected recorder o (start [])))
     = pre ++ [EvLabel "json" true; EvCall "splitnets";
               EvCall ("write_json " ++ c_str (json_file o))%string]).
Proof.
  intros o.
  assert (N : json_file o <> "") by discriminate.
  assert (H : In (EvLabel "json" true)
                (trace (snd (run_config selected recorder o (start []))))).
  { vm_compute. do 33 right. left. reflexivity. }
  do 3 (split; [reflexivity|]). split; [exact N|]. split; [exact H|].
  exact (json_file_written_last (list string) selected recorder o []
           (fun _ _ => eq_refl) eq_refl eq_refl N H).
Defined.

Lemma lut_budget_by_part_witness :
  let o := with_part default_options "SLG46140V" in
  (forall d c, fst (recorder d c) = true) /\
  selected [] = true /\
  invalid_part (part o) = false /\
  In (EvLabel "map_luts" true)
     (trace (snd (run_config selected recorder o (start [])))) /\
  (exists pre b post,
     trace (snd (run_config selected recorder o (start [])))
     = pre
       ++ [EvLabel "map_luts" true;
           EvCall (if part o =? "SLG46140V" then "nlutmap -luts 0,6,8,2"
                   else "nlutmap -luts 2,8,16,2");
           EvCall "clean";
           EvLabel "map_cells" b]
       ++ post /\
     (forall c, In c (calls_of pre) -> prefix "nlutmap" c = false) /\
     (forall c, In c (calls_of post) -> prefix "nlutmap" c = false)).
Proof.
  intros o.
  assert (H : In (EvLabel "map_luts" true)
                (trace (snd (run_config selected recorder o (start []))))).
  { vm_compute. do 18 right. left. reflexivity. }
  do 3 (split; [reflexivity|]). split; [exact H|].
  exact (lut_budget_by_part (list string) selected recorder o []
           (fun _ _ => eq_refl) eq_refl eq_refl H).
Defined.

Lemma execute_run_without_colon_witness :
  snd (parse_args default_options 1 ["-part"; "SLG46140V"]) = 1 + 2 /\
  find_colon "fine" = None /\
  fst (nothing_left
         ("synth_greenpak4" :: ["-part"; "SLG46140V"]
                               ++ "-run" :: "fine" :: ["-retime"])
         (1 + 2) []) = false /\
  trace (snd (execute selected recorder nothing_left
                ("synth_greenpak4" :: ["-part"; "SLG46140V"]
                                      ++ "-run" :: "fine" :: ["-retime"])
                (start []))) = [].
Proof.
  do 3 (split; [reflexivity|]).
  exact (proj2 (proj2
    (execute_run_without_colon (list string) selected recorder nothing_left
       "synth_greenpak4" "fine" ["-part"; "SLG46140V"] ["-retime"] (start [])
       eq_refl eq_refl) eq_refl)).
Defined.
